(** * inertia-fastapi: the Inertia.js protocol adapter, embedded in Rocq

    A shallow embedding of [inertia/prop_classes.py], [inertia/helpers.py],
    [inertia/http.py], [inertia/share.py] and [inertia/middleware.py],
    followed by the properties of the page builder, the responder, the
    shared state and the redirect middleware.

    Conventions of the embedding.
    - A Python [dict] is an association list in insertion order with unique
      keys.
    - The headers of a request are the framework's [Headers] object over the
      header list of the ASGI scope, where the server has put the names in
      lower case; [h !! name] is its lookup, which lower-cases [name].  The
      headers of a response, of which the code only asks membership and
      lookups by one spelling, are a [gmap string string].
    - A Python [str] is a [string]; one character stands for one code
      point below 256.
    - A value is a tree: no object sits at two places of a prop map.
    - A user callable is [PFunc id ret]: an object with identity [id] that
      returns [ret] when invoked, and does not raise.  Invocations are
      recorded, in order, in a log threaded through the code; the log is how
      the properties tell that a producer ran once, or never.
    - Code that can raise returns [Raise e]; the log is kept on both paths.
    - What lies outside the repository (the SSR service, the template
      engine, the rest of the application) is a parameter. *)

From stdpp Require Import base strings list gmap pretty.
From Stdlib Require Import ZArith Ascii String.

Local Open Scope string_scope.
Local Open Scope list_scope.
Local Open Scope Z_scope.

Set Warnings "-register-all".

(** ** Python values *)

Inductive pyval : Type :=
| PNone
| PBool (b : bool)
| PInt (z : Z)
| PStr (s : string)
| PList (items : list pyval)
| PDict (entries : list (string * pyval))
| PFunc (id : nat) (ret : pyval)
| POptionalProp (prop : pyval)
| PDeferredProp (prop : pyval) (group : string) (merge : bool)
| PMergeProp (prop : pyval).

(** Induction on values, with the hypothesis for every element of a list
    and every value of a dict. *)
Section pyval_induction.
Variable P : pyval → Prop.
Hypothesis HNone : P PNone.
Hypothesis HBool : ∀ b, P (PBool b).
Hypothesis HInt : ∀ z, P (PInt z).
Hypothesis HStr : ∀ s, P (PStr s).
Hypothesis HList : ∀ items, Forall P items → P (PList items).
Hypothesis HDict : ∀ entries, Forall (λ kv, P kv.2) entries → P (PDict entries).
Hypothesis HFunc : ∀ id result, P result → P (PFunc id result).
Hypothesis HOptional : ∀ prop, P prop → P (POptionalProp prop).
Hypothesis HDeferred : ∀ prop group merge, P prop → P (PDeferredProp prop group merge).
Hypothesis HMerge : ∀ prop, P prop → P (PMergeProp prop).

Fixpoint pyval_nested_ind (v : pyval) : P v :=
  match v with
  | PNone => HNone
  | PBool b => HBool b
  | PInt z => HInt z
  | PStr s => HStr s
  | PList items =>
      HList items
        ((fix all (l : list pyval) : Forall P l :=
            match l with
            | [] => Forall_nil_2 P
            | x :: rest => Forall_cons_2 P x rest (pyval_nested_ind x) (all rest)
            end) items)
  | PDict entries =>
      HDict entries
        ((fix all (l : list (string * pyval)) : Forall (λ kv, P kv.2) l :=
            match l with
            | [] => Forall_nil_2 _
            | kv :: rest =>
                Forall_cons_2 (λ kv, P kv.2) kv rest (pyval_nested_ind kv.2) (all rest)
            end) entries)
  | PFunc id result => HFunc id result (pyval_nested_ind result)
  | POptionalProp prop => HOptional prop (pyval_nested_ind prop)
  | PDeferredProp prop group merge =>
      HDeferred prop group merge (pyval_nested_ind prop)
  | PMergeProp prop => HMerge prop (pyval_nested_ind prop)
  end.

End pyval_induction.

(** ** Insertion-ordered dictionaries *)

Section dict.
Context {V : Type}.

Fixpoint dict_get (d : list (string * V)) (k : string) : option V :=
  match d with
  | [] => None
  | (k', v) :: rest => if decide (k' = k) then Some v else dict_get rest k
  end.

(** [d[k] = v]: an existing key keeps its position, a new one goes last. *)
Fixpoint dict_set (d : list (string * V)) (k : string) (v : V) : list (string * V) :=
  match d with
  | [] => [(k, v)]
  | (k', v') :: rest =>
      if decide (k' = k) then (k', v) :: rest else (k', v') :: dict_set rest k v
  end.

(** [del d[k]]. *)
Fixpoint dict_del (d : list (string * V)) (k : string) : list (string * V) :=
  match d with
  | [] => []
  | (k', v') :: rest =>
      if decide (k' = k) then dict_del rest k else (k', v') :: dict_del rest k
  end.

Definition dict_keys (d : list (string * V)) : list string := d.*1.

(** [d.update(other)]. *)
Definition dict_update (d other : list (string * V)) : list (string * V) :=
  fold_left (fun acc kv => dict_set acc kv.1 kv.2) other d.

(** The display [{**a, **b}]. *)
Definition dict_merge (a b : list (string * V)) : list (string * V) :=
  dict_update (dict_update [] a) b.

End dict.

(** ** [str.split(sep)] for a one-character separator *)

Fixpoint split (sep : ascii) (s : string) : list string :=
  match s with
  | EmptyString => [EmptyString]
  | String c rest =>
      if Ascii.eqb c sep then EmptyString :: split sep rest
      else match split sep rest with
           | [] => [String c EmptyString]
           | x :: xs => String c x :: xs
           end
  end.

Definition comma : ascii := ","%char.

(** ** Effects: the invocation log and exceptions *)

(** [TypeError] is what the code of the repository and the interpreter
    raise here; the template engine raises [TemplateNotFound] for a missing
    template and may raise an exception of any other class, given by the
    name of the class. *)
Inductive exn : Type :=
| TypeError (msg : string)
| TemplateNotFound (name : string)
| OtherError (class_name msg : string).

Inductive outcome (A : Type) : Type :=
| Return (a : A)
| Raise (e : exn).
Arguments Return {A} a.
Arguments Raise {A} e.

Definition M (A : Type) : Type := list nat -> outcome A * list nat.

Definition ret {A} (a : A) : M A := fun log => (Return a, log).

Definition raise {A} (e : exn) : M A := fun log => (Raise e, log).

Definition bind {A B} (m : M A) (f : A -> M B) : M B :=
  fun log =>
    match m log with
    | (Return a, log') => f a log'
    | (Raise e, log') => (Raise e, log')
    end.

Notation "'do' x <- m ; f" := (bind m (fun x => f))
  (at level 10, x name, m at level 100, f at level 200).

(** A call of the user callable [id]. *)
Definition invoke (id : nat) (result : pyval) : M pyval :=
  fun log => (Return result, log ++ [id]).

(** ** prop_classes.py *)

Module prop_classes.

(** [isinstance(v, IgnoreOnFirstLoadProp)]: the subclasses are
    [OptionalProp] and [DeferredProp]. *)
Definition isinstance_IgnoreOnFirstLoadProp (v : pyval) : bool :=
  match v with
  | POptionalProp _ | PDeferredProp _ _ _ => true
  | _ => false
  end.

(** [isinstance(v, MergeableProp)]: [DeferredProp] and [MergeProp]. *)
Definition isinstance_MergeableProp (v : pyval) : bool :=
  match v with
  | PDeferredProp _ _ _ | PMergeProp _ => true
  | _ => false
  end.

Definition isinstance_DeferredProp (v : pyval) : bool :=
  match v with
  | PDeferredProp _ _ _ => true
  | _ => false
  end.

(** [v.should_merge()], for a [MergeableProp]. *)
Definition should_merge (v : pyval) : bool :=
  match v with
  | PDeferredProp _ _ merge => merge
  | PMergeProp _ => true
  | _ => false
  end.

(** [callable(v)]: user callables, and the prop wrappers through
    [CallableProp.__call__]. *)
Definition callable (v : pyval) : bool :=
  match v with
  | PFunc _ _ | POptionalProp _ | PDeferredProp _ _ _ | PMergeProp _ => true
  | _ => false
  end.

(** The idiom [x() if callable(x) else x].  On a wrapper, [x()] is
    [CallableProp.__call__], which is the same idiom on [x.prop]. *)
Fixpoint call_if_callable (x : pyval) : M pyval :=
  match x with
  | PFunc id result => invoke id result
  | POptionalProp prop => call_if_callable prop
  | PDeferredProp prop _ _ => call_if_callable prop
  | PMergeProp prop => call_if_callable prop
  | _ => ret x
  end.

End prop_classes.

(** [type(v).__name__] and [isinstance(v, t)] for the built-in types. *)
Inductive pytype : Type :=
| TNoneType | TBool | TInt | TStr | TList | TDict | TFunction
| TOptionalProp | TDeferredProp | TMergeProp.

Definition type_of (v : pyval) : pytype :=
  match v with
  | PNone => TNoneType
  | PBool _ => TBool
  | PInt _ => TInt
  | PStr _ => TStr
  | PList _ => TList
  | PDict _ => TDict
  | PFunc _ _ => TFunction
  | POptionalProp _ => TOptionalProp
  | PDeferredProp _ _ _ => TDeferredProp
  | PMergeProp _ => TMergeProp
  end.

Definition type_name (t : pytype) : string :=
  match t with
  | TNoneType => "NoneType"
  | TBool => "bool"
  | TInt => "int"
  | TStr => "str"
  | TList => "list"
  | TDict => "dict"
  | TFunction => "function"
  | TOptionalProp => "OptionalProp"
  | TDeferredProp => "DeferredProp"
  | TMergeProp => "MergeProp"
  end.

#[global] Instance pytype_eq_dec : EqDecision pytype.
Proof. solve_decision. Defined.

(** [bool] is a subclass of [int]. *)
Definition isinstance (v : pyval) (t : pytype) : bool :=
  match type_of v, t with
  | TBool, TInt => true
  | t', _ => bool_decide (t' = t)
  end.

(** ** helpers.py *)

Module helpers.

(** The loop [for key in list(prop.keys()): prop[key] = f(prop[key])]: on
    unique keys it rewrites every entry where it stands, first to last. *)
Section for_each_key.
Variable f : pyval → M pyval.

Fixpoint for_each_key (items : list (string * pyval)) : M (list (string * pyval)) :=
  match items with
  | [] => ret []
  | (key, v) :: rest =>
      do v' <- f v;
      do rest' <- for_each_key rest;
      ret ((key, v') :: rest')
  end.

End for_each_key.

Fixpoint deep_transform_callables (prop : pyval) : M pyval :=
  match prop with
  | PDict entries =>
      do entries' <- for_each_key deep_transform_callables entries;
      ret (PDict entries')
  | _ => prop_classes.call_if_callable prop
  end.

Definition validate_type (value : pyval) (name : string) (expected_type : pytype)
  : M pyval :=
  if negb (isinstance value expected_type) then
    raise (TypeError ("Expected " +:+ type_name expected_type +:+ " for " +:+ name
                      +:+ ", got " +:+ type_name (type_of value)))
  else ret value.

End helpers.

(** ** settings.py *)

Module settings.

Record InertiaSettings : Type := mk {
  INERTIA_VERSION : string;
  INERTIA_SSR_URL : string;
  INERTIA_SSR_ENABLED : bool;
  INERTIA_ENCRYPT_HISTORY : bool;
  INERTIA_LAYOUT : string
}.

Definition defaults : InertiaSettings :=
  {| INERTIA_VERSION := "1.0";
     INERTIA_SSR_URL := "http://localhost:13714";
     INERTIA_SSR_ENABLED := false;
     INERTIA_ENCRYPT_HISTORY := false;
     INERTIA_LAYOUT := "base.html" |}.

End settings.

(** ** Header names

    [str.lower()] on the code points below 256: the upper-case letters are
    [A]-[Z] and, in Latin-1, the letters from 192 to 222 but for the
    multiplication sign. *)

Definition lower_char (c : ascii) : ascii :=
  let n := N_of_ascii c in
  if ((65 <=? n) && (n <=? 90)
      || (192 <=? n) && (n <=? 222) && negb (n =? 215))%N
  then ascii_of_N (n + 32)
  else c.

Fixpoint lower (s : string) : string :=
  match s with
  | EmptyString => EmptyString
  | String c rest => String (lower_char c) (lower rest)
  end.

(** ** The framework's [Headers]

    [starlette.datastructures.Headers]: the object keeps the list of
    (name, value) pairs it was made from; [keys()] gives the names as they
    are in that list, while [__getitem__], [__contains__] and [get]
    lower-case the name they are asked for and take the first pair with
    that name. *)

Module Headers.

Record t : Type := mk { _list : list (string * string) }.

Definition keys (self : t) : list string := (_list self).*1.

(** [None] is [KeyError]. *)
Definition __getitem__ (self : t) (key : string) : option string :=
  dict_get (_list self) (lower key).

End Headers.

#[global] Instance headers_lookup : Lookup string string Headers.t :=
  λ key self, Headers.__getitem__ self key.
#[global] Arguments headers_lookup : simpl never.

(** ** The request, as the code reads it *)

Module Request.

(** [header_fields] are the header fields of the HTTP request, names as the
    client sent them.  [state_inertia] is [request.state.inertia.all()] when
    the attribute exists; [state_encrypt_history] is the attribute
    [request.state._inertia_encrypt_history] when it exists. *)
Record t : Type := mk {
  method : string;
  url : string;
  header_fields : list (string * string);
  state_inertia : option (list (string * pyval));
  state_encrypt_history : option pyval
}.

(** The header list of the ASGI scope: the server hands the fields over in
    their order, with the names in lower case (so does the test client). *)
Definition scope_headers (request : t) : list (string * string) :=
  (λ field, (lower field.1, field.2)) <$> header_fields request.

(** [request.headers]. *)
Definition headers (request : t) : Headers.t :=
  Headers.mk (scope_headers request).
#[global] Arguments headers : simpl never.

End Request.

Definition HTTPStatus_OK : Z := 200.
Definition HTTPStatus_MOVED_PERMANENTLY : Z := 301.
Definition HTTPStatus_FOUND : Z := 302.
Definition HTTPStatus_SEE_OTHER : Z := 303.
Definition HTTPStatus_CONFLICT : Z := 409.

(** ** http.py: InertiaRequest *)

Module InertiaRequest.

(** The property [headers], [dict(self.request.headers)]: a [Headers] is a
    mapping, so the dict is filled with [d[key] = h[key]] for [key] in
    [h.keys()], the names as they are in the scope.  [h[key]] is bound for
    each of them, the names of the scope being in lower case. *)
Definition headers (request : Request.t) : list (string * string) :=
  let h := Request.headers request in
  fold_left (λ d key,
               match h !! key with
               | Some value => dict_set d key value
               | None => d
               end) (Headers.keys h) [].

(** [name in self.headers]: membership in that dict, by the name as it is
    spelled. *)
Definition has_header (request : Request.t) (name : string) : bool :=
  bool_decide (is_Some (dict_get (headers request) name)).

(** [self.headers.get(name, "")]. *)
Definition get_header (request : Request.t) (name : string) : string :=
  default "" (dict_get (headers request) name).

(** A wrapper made by [InertiaResponse.__init__] has [_inertia_state = {}]. *)
Definition inertia (request : Request.t) : list (string * pyval) :=
  match Request.state_inertia request with
  | Some shared => shared
  | None => []
  end.

Definition is_inertia (request : Request.t) : bool :=
  has_header request "X-Inertia".

Definition is_a_partial_render (request : Request.t) (component : string) : bool :=
  has_header request "X-Inertia-Partial-Data"
  && bool_decide (get_header request "X-Inertia-Partial-Component" = component).

Definition partial_keys (request : Request.t) : list string :=
  split comma (get_header request "X-Inertia-Partial-Data").

Definition reset_keys (request : Request.t) : list string :=
  split comma (get_header request "X-Inertia-Reset").

Definition should_encrypt_history (cfg : settings.InertiaSettings)
    (request : Request.t) : M pyval :=
  let encrypt_history :=
    default (PBool (settings.INERTIA_ENCRYPT_HISTORY cfg))
            (Request.state_encrypt_history request) in
  helpers.validate_type encrypt_history "encrypt_history" TBool.

End InertiaRequest.

(** ** [json.dumps]

    The encoder of the standard library, for the values of the embedding.
    [ensure_ascii] selects between the two escaping tables; the separators
    are those of the call.  A value the encoder does not know goes to
    [InertiaJsonEncoder.default], which ends in [TypeError] for every value
    of the embedding (none has [InertiaMeta], [__tablename__] or [all]). *)

Module json.

Definition dquote : ascii := "034"%char.
Definition backslash : ascii := "092"%char.

Definition hex_digit (n : N) : ascii :=
  match n with
  | 0 => "0" | 1 => "1" | 2 => "2" | 3 => "3" | 4 => "4" | 5 => "5"
  | 6 => "6" | 7 => "7" | 8 => "8" | 9 => "9" | 10 => "a" | 11 => "b"
  | 12 => "c" | 13 => "d" | 14 => "e" | _ => "f"
  end%N%char.

(** ['\\u{0:04x}'.format(n)] for [n < 256]. *)
Definition u_escape (n : N) : string :=
  String backslash (String "u" (String "0" (String "0"
    (String (hex_digit (n / 16)) (String (hex_digit (n mod 16)) ""))))).

Definition escape_char (ensure_ascii : bool) (c : ascii) : string :=
  let n := N_of_ascii c in
  if (n =? 34)%N then String backslash (String dquote "")
  else if (n =? 92)%N then String backslash (String backslash "")
  else if (n =? 10)%N then String backslash "n"
  else if (n =? 13)%N then String backslash "r"
  else if (n =? 9)%N then String backslash "t"
  else if (n =? 8)%N then String backslash "b"
  else if (n =? 12)%N then String backslash "f"
  else if (n <? 32)%N then u_escape n
  else if ensure_ascii && (126 <? n)%N then u_escape n
  else String c "".

Fixpoint escape_string (ensure_ascii : bool) (s : string) : string :=
  match s with
  | EmptyString => ""
  | String c rest => escape_char ensure_ascii c +:+ escape_string ensure_ascii rest
  end.

Definition encode_basestring (ensure_ascii : bool) (s : string) : string :=
  String dquote (escape_string ensure_ascii s +:+ String dquote "").

Definition not_serializable (o : pyval) : exn :=
  TypeError ("Object of type " +:+ type_name (type_of o)
             +:+ " is not JSON serializable").

Section dumps.
Variable ensure_ascii : bool.
Variables item_separator key_separator : string.

Fixpoint dumps (o : pyval) : outcome string :=
  match o with
  | PNone => Return "null"
  | PBool true => Return "true"
  | PBool false => Return "false"
  | PInt z => Return (pretty z)
  | PStr s => Return (encode_basestring ensure_ascii s)
  | PList items =>
      let fix chunks (first : bool) (l : list pyval) : outcome string :=
        match l with
        | [] => Return ""
        | x :: rest =>
            match dumps x, chunks false rest with
            | Return sx, Return sr =>
                Return ((if first then "" else item_separator) +:+ sx +:+ sr)
            | Raise e, _ => Raise e
            | _, Raise e => Raise e
            end
        end in
      match chunks true items with
      | Return inner => Return ("[" +:+ inner +:+ "]")
      | Raise e => Raise e
      end
  | PDict entries =>
      let fix chunks (first : bool) (l : list (string * pyval)) : outcome string :=
        match l with
        | [] => Return ""
        | (k, x) :: rest =>
            match dumps x, chunks false rest with
            | Return sx, Return sr =>
                Return ((if first then "" else item_separator)
                        +:+ encode_basestring ensure_ascii k
                        +:+ key_separator +:+ sx +:+ sr)
            | Raise e, _ => Raise e
            | _, Raise e => Raise e
            end
        end in
      match chunks true entries with
      | Return inner => Return ("{" +:+ inner +:+ "}")
      | Raise e => Raise e
      end
  | PFunc _ _ | POptionalProp _ | PDeferredProp _ _ _ | PMergeProp _ =>
      Raise (not_serializable o)
  end.

End dumps.

(** [str.encode("utf-8")] on code points below 256. *)
Fixpoint encode_utf8 (s : string) : string :=
  match s with
  | EmptyString => ""
  | String c rest =>
      let n := N_of_ascii c in
      if (n <? 128)%N then String c (encode_utf8 rest)
      else String (ascii_of_N (192 + n / 64))
             (String (ascii_of_N (128 + n mod 64)) (encode_utf8 rest))
  end.

End json.

(** [json_encode(page_data, cls=settings.INERTIA_JSON_ENCODER)]: the
    defaults of [json.dumps]. *)
Definition json_encode (o : pyval) : outcome string :=
  json.dumps true ", " ": " o.

Definition lift {A} (r : outcome A) : M A := fun log => (r, log).

(** ** Responses of the framework

    A response is its body (bytes), its status code and the headers the
    code gave it. *)

Module Response.

Record t : Type := mk {
  body : string;
  status_code : Z;
  headers : gmap string string
}.

Definition set_status_code (response : t) (code : Z) : t :=
  {| body := body response; status_code := code; headers := headers response |}.

Definition set_headers (response : t) (h : gmap string string) : t :=
  {| body := body response; status_code := status_code response; headers := h |}.

End Response.

(** [JSONResponse(content, status_code, headers)]: the body is
    [json.dumps(content, ensure_ascii=False, separators=(",", ":"))],
    encoded in UTF-8. *)
Definition JSONResponse (content : pyval) (status_code : Z)
    (headers : gmap string string) : outcome Response.t :=
  match json.dumps false "," ":" content with
  | Return rendered => Return (Response.mk (json.encode_utf8 rendered) status_code headers)
  | Raise e => Raise e
  end.

Definition HTMLResponse (content : string) (status_code : Z)
    (headers : gmap string string) : Response.t :=
  Response.mk (json.encode_utf8 content) status_code headers.

(** ** http.py: InertiaResponse *)

Module InertiaResponse.

Record t : Type := mk {
  inertia_request : Request.t;
  component : string;
  props : list (string * pyval);
  template_data : list (string * pyval);
  status_code : Z;
  headers : gmap string string
}.

(** One turn of the loop over [list(_props.keys())].  [_props[key]] is
    always bound there: the keys are those of [_props] itself and each is
    deleted at most once. *)
Definition filter_step (self : t) (_props : list (string * pyval)) (key : string)
  : list (string * pyval) :=
  if InertiaRequest.is_a_partial_render (inertia_request self) (component self) then
    if negb (bool_decide (key ∈ InertiaRequest.partial_keys (inertia_request self)))
    then dict_del _props key
    else _props
  else
    match dict_get _props key with
    | Some v =>
        if prop_classes.isinstance_IgnoreOnFirstLoadProp v
        then dict_del _props key
        else _props
    | None => _props
    end.

(** [{**self.inertia_request.inertia, **self.props}]. *)
Definition merged_props (self : t) : list (string * pyval) :=
  dict_merge (InertiaRequest.inertia (inertia_request self)) (props self).

(** The prop map after the loop, before the callables are resolved. *)
Definition filtered_props (self : t) : list (string * pyval) :=
  let _props := merged_props self in
  fold_left (filter_step self) (dict_keys _props) _props.

Definition _build_props (self : t) : M pyval :=
  helpers.deep_transform_callables (PDict (filtered_props self)).

(** [d.setdefault(group, []).append(key)]. *)
Definition setdefault_append (d : list (string * list string)) (group key : string)
  : list (string * list string) :=
  match dict_get d group with
  | Some keys => dict_set d group (keys ++ [key])
  | None => dict_set d group [key]
  end.

Definition _build_deferred_props (self : t) : option (list (string * list string)) :=
  if InertiaRequest.is_a_partial_render (inertia_request self) (component self) then None
  else
    let _deferred_props :=
      fold_left (fun acc kv =>
                   match kv.2 with
                   | PDeferredProp _ group _ => setdefault_append acc group kv.1
                   | _ => acc
                   end) (props self) [] in
    match _deferred_props with
    | [] => None
    | _ :: _ => Some _deferred_props
    end.

Definition _build_merge_props (self : t) : list string :=
  omap (fun kv =>
          if prop_classes.isinstance_MergeableProp kv.2
             && prop_classes.should_merge kv.2
             && negb (bool_decide (kv.1 ∈ InertiaRequest.reset_keys (inertia_request self)))
          then Some kv.1 else None) (props self).

(** A [Dict[str, List[str]]] and a [List[str]] as values of the page. *)
Definition str_list (l : list string) : pyval := PList (PStr <$> l).

Definition group_map (d : list (string * list string)) : pyval :=
  PDict (prod_map id str_list <$> d).

Definition INERTIA_SESSION_CLEAR_HISTORY : string := "_inertia_clear_history".

Definition _build_page_data (cfg : settings.InertiaSettings) (self : t)
  : M (list (string * pyval)) :=
  let session : list (string * pyval) := [] in
  do clear_history <-
    helpers.validate_type
      (default (PBool false) (dict_get session INERTIA_SESSION_CLEAR_HISTORY))
      "clear_history" TBool;
  do built_props <- _build_props self;
  do encrypt_history <-
    InertiaRequest.should_encrypt_history cfg (inertia_request self);
  let _page :=
    [ ("component", PStr (component self));
      ("props", built_props);
      ("url", PStr (Request.url (inertia_request self)));
      ("version", PStr (settings.INERTIA_VERSION cfg));
      ("encryptHistory", encrypt_history);
      ("clearHistory", clear_history) ] in
  let _page :=
    match _build_deferred_props self with
    | Some (g :: gs) => dict_set _page "deferredProps" (group_map (g :: gs))
    | _ => _page
    end in
  let _page :=
    match _build_merge_props self with
    | k :: ks => dict_set _page "mergeProps" (str_list (k :: ks))
    | [] => _page
    end in
  ret _page.

(** *** First load: server-side rendering and the template

    The companion SSR process and the template engine are outside the
    repository.  The SSR call is described by what the three library calls
    in the [try] block do.  The engine is [get_template], which finds the
    template of a name or raises; a template is its [render], from the
    keyword arguments to the rendered text. *)

Inductive ssr_reply : Type :=
| PostRaised
| RaiseForStatusRaised
| JsonRaised
| JsonValue (v : pyval).

Definition template : Type := list (string * pyval) -> outcome string.

Section first_load.
Variable ssr_post : string -> string -> ssr_reply.
Variable get_template : string -> outcome template.

(** The body of the [try] block; [None] is any exception, which the
    [except Exception] clause swallows.  Unpacking [**response.json()]
    raises [TypeError] unless the value is a mapping. *)
Definition try_ssr (cfg : settings.InertiaSettings) (self : t) (data : string)
  : option (list (string * pyval) * string) :=
  match ssr_post (settings.INERTIA_SSR_URL cfg +:+ "/render") data with
  | PostRaised => None
  | RaiseForStatusRaised => None
  | JsonRaised => None
  | JsonValue (PDict fragment) =>
      Some (dict_merge fragment (template_data self), "inertia_ssr.html")
  | JsonValue _ => None
  end.

Definition client_side (self : t) (data : string)
  : list (string * pyval) * string :=
  (dict_merge [("page", PStr data)] (template_data self), "inertia.html").

Definition _build_first_load_context_and_template
    (cfg : settings.InertiaSettings) (self : t) (data : string)
  : list (string * pyval) * string :=
  if settings.INERTIA_SSR_ENABLED cfg then
    match try_ssr cfg self data with
    | Some result => result
    | None => client_side self data
    end
  else client_side self data.

(** [get_template(template_name)] is evaluated first.  The call
    [render(inertia_layout=..., **context)] that follows is a [TypeError],
    raised before [render] runs, when the context repeats the keyword. *)
Definition _build_first_load (cfg : settings.InertiaSettings) (self : t)
    (data : string) : outcome string :=
  let '(context, template_name) :=
    _build_first_load_context_and_template cfg self data in
  match get_template template_name with
  | Raise e => Raise e
  | Return render =>
      match dict_get context "inertia_layout" with
      | Some _ =>
          Raise (TypeError "render() got multiple values for keyword argument 'inertia_layout'")
      | None =>
          render (("inertia_layout", PStr (settings.INERTIA_LAYOUT cfg)) :: context)
      end
  end.

Definition inertia_headers (h : gmap string string) : gmap string string :=
  <["Content-Type" := "application/json"]>
    (<["X-Inertia" := "true"]> (<["Vary" := "X-Inertia"]> h)).

Definition __call__ (cfg : settings.InertiaSettings) (self : t) : M Response.t :=
  do page_data <- _build_page_data cfg self;
  do data <- lift (json_encode (PDict page_data));
  if InertiaRequest.is_inertia (inertia_request self) then
    lift (JSONResponse (PStr data) (status_code self) (inertia_headers (headers self)))
  else
    do content <- lift (_build_first_load cfg self data);
    ret (HTMLResponse content (status_code self) (headers self)).

End first_load.

End InertiaResponse.

(** ** http.py: [location] *)

Definition location (url : string) : Response.t :=
  Response.mk "" HTTPStatus_CONFLICT {[ "X-Inertia-Location" := url ]}.

(** ** middleware.py *)

Module InertiaMiddleware.

Section dispatch.
(** The rest of the application runs on its own state, which the
    middleware never sees. *)
Context {AppState : Type}.
Variable cfg : settings.InertiaSettings.

Definition _is_inertia_request (request : Request.t) : bool :=
  bool_decide (is_Some (Request.headers request !! "X-Inertia")).

Definition _is_redirect_response (response : Response.t) : bool :=
  bool_decide (Response.status_code response
               ∈ [HTTPStatus_MOVED_PERMANENTLY; HTTPStatus_FOUND]).

Definition _is_non_get_redirect (request : Request.t) (response : Response.t) : bool :=
  _is_redirect_response response
  && bool_decide (Request.method request ∈ ["PUT"; "PATCH"; "DELETE"]).

Definition _is_stale (request : Request.t) : bool :=
  negb (bool_decide (default "" (Request.headers request !! "X-Inertia-Version")
                     = settings.INERTIA_VERSION cfg)).

Definition _force_refresh (request : Request.t) : Response.t :=
  location (Request.url request).

(** The second half of [dispatch], on the response of the application. *)
Definition post_pass (request : Request.t) (response : Response.t) : Response.t :=
  if _is_inertia_request request then
    if _is_non_get_redirect request response then
      Response.set_status_code response HTTPStatus_SEE_OTHER
    else if _is_redirect_response response then
      let location_url := default "/" (Response.headers response !! "Location") in
      let response := Response.set_status_code response HTTPStatus_CONFLICT in
      let response :=
        Response.set_headers response
          (<["X-Inertia-Location" := location_url]> (Response.headers response)) in
      if bool_decide (is_Some (Response.headers response !! "Location")) then
        Response.set_headers response (delete "Location" (Response.headers response))
      else response
    else response
  else response.

Definition dispatch (request : Request.t)
    (call_next : Request.t -> AppState -> Response.t * AppState)
  : AppState -> Response.t * AppState :=
  fun st =>
    if _is_inertia_request request
       && bool_decide (Request.method request = "GET")
       && _is_stale request
    then (_force_refresh request, st)
    else
      let '(response, st') := call_next request st in
      (post_pass request response, st').

End dispatch.

End InertiaMiddleware.

(** ** share.py *)

Module share.

(** [InertiaShare.set], on the [props] of the object and the keyword
    arguments. *)
Definition set (props kwargs : list (string * pyval)) : list (string * pyval) :=
  dict_merge props kwargs.

(** [InertiaShare.all()]. *)
Definition all (props : list (string * pyval)) : list (string * pyval) := props.

(** [share(request, **kwargs)].  A framework request has no attribute
    [_inertia_state], so the last block of the function is skipped. *)
Definition share (request : Request.t) (kwargs : list (string * pyval)) : Request.t :=
  let inertia :=
    match Request.state_inertia request with
    | Some props => props
    | None => []
    end in
  {| Request.method := Request.method request;
     Request.url := Request.url request;
     Request.header_fields := Request.header_fields request;
     Request.state_inertia := Some (set inertia kwargs);
     Request.state_encrypt_history := Request.state_encrypt_history request |}.

End share.

(** ** http.py: the state of an [InertiaRequest]

    The wrapper with its own [_inertia_state], for the methods that write
    it.  [InertiaRequest.inertia] above is [inertia] here on a wrapper fresh
    from [__init__]. *)

Module InertiaRequestState.

Record t : Type := mk {
  request : Request.t;
  _inertia_state : list (string * pyval)
}.

Definition __init__ (request : Request.t) : t :=
  {| request := request; _inertia_state := [] |}.

Definition inertia (self : t) : list (string * pyval) :=
  match Request.state_inertia (request self) with
  | Some props => share.all props
  | None => _inertia_state self
  end.

(** Both branches end in [request.state.inertia.set] on the entries of
    [data], the second on an [InertiaShare] made on the spot. *)
Definition set_inertia_state (self : t) (data : list (string * pyval)) : t :=
  {| request := share.share (request self) data;
     _inertia_state := data |}.

End InertiaRequestState.

(** ** http.py: functions on the request state *)

(** [encrypt_history(request, value)]; [value] defaults to [True]. *)
Definition encrypt_history (request : Request.t) (value : pyval) : Request.t :=
  {| Request.method := Request.method request;
     Request.url := Request.url request;
     Request.header_fields := Request.header_fields request;
     Request.state_inertia := Request.state_inertia request;
     Request.state_encrypt_history := Some value |}.

(** [clear_history(request)]: the body is [pass]. *)
Definition clear_history (request : Request.t) : Request.t := request.

(** The middleware that [setup_inertia] installs for a
    [shared_data_callback]. *)
Definition shared_data_middleware {AppState : Type}
    (shared_data_callback : Request.t → list (string * pyval))
    (request : Request.t)
    (call_next : Request.t → AppState → Response.t * AppState)
  : AppState → Response.t * AppState :=
  let inertia_request := InertiaRequestState.__init__ request in
  let shared_data := shared_data_callback request in
  let inertia_request :=
    InertiaRequestState.set_inertia_state inertia_request shared_data in
  call_next (InertiaRequestState.request inertia_request).

(** * Vocabulary of the properties *)

(** The entries of a dictionary that satisfy [keep], in their order. *)
Definition dict_filter {V} (keep : string → V → bool) (d : list (string * V))
  : list (string * V) :=
  List.filter (λ kv, keep kv.1 kv.2) d.

(** Whether the response is built as a partial render. *)
Definition partial_render (self : InertiaResponse.t) : bool :=
  InertiaRequest.is_a_partial_render
    (InertiaResponse.inertia_request self) (InertiaResponse.component self).

(** The decision the loop of [_build_props] takes for one entry. *)
Definition keeps (self : InertiaResponse.t) (key : string) (v : pyval) : bool :=
  if partial_render self
  then bool_decide
         (key ∈ InertiaRequest.partial_keys (InertiaResponse.inertia_request self))
  else negb (prop_classes.isinstance_IgnoreOnFirstLoadProp v).

(** [hdr l] is the header collection with the entries of [l]. *)
Definition hdr (l : list (string * string)) : gmap string string := list_to_map l.

(** Sample inputs, after the endpoints of the test-suite. *)
Definition sample_request (method : string) (headers : list (string * string))
  : Request.t :=
  Request.mk method "http://testserver/page/" headers None None.

Definition sample_response (request : Request.t) (props : list (string * pyval))
  : InertiaResponse.t :=
  InertiaResponse.mk request "TestComponent" props [] HTTPStatus_OK ∅.

Definition optional_props : list (string * pyval) :=
  [ ("name", PStr "Brian");
    ("sport", POptionalProp (PFunc 1 (PStr "Basketball")));
    ("grit", POptionalProp (PFunc 2 (PStr "intense"))) ].

Definition partial_optional : InertiaResponse.t :=
  sample_response
    (sample_request "GET"
       [ ("X-Inertia", "true");
         ("X-Inertia-Partial-Data", "sport,grit");
         ("X-Inertia-Partial-Component", "TestComponent") ])
    optional_props.

(** The partial-render test in the words of the specification: the request
    has the partial-data header, and its companion header carries the
    component name. *)
Definition partial_render_as_specified (request : Request.t) (component : string)
  : Prop :=
  is_Some (Request.headers request !! "X-Inertia-Partial-Data")
  ∧ Request.headers request !! "X-Inertia-Partial-Component" = Some component.

(** The value of [x() if callable(x) else x], and the user callables that
    evaluating it invokes. *)
Fixpoint producer_result (x : pyval) : pyval :=
  match x with
  | PFunc _ result => result
  | POptionalProp prop | PDeferredProp prop _ _ | PMergeProp prop =>
      producer_result prop
  | _ => x
  end.

Fixpoint producer_calls (x : pyval) : list nat :=
  match x with
  | PFunc id _ => [id]
  | POptionalProp prop | PDeferredProp prop _ _ | PMergeProp prop =>
      producer_calls prop
  | _ => []
  end.

(** A prop value with the producers that sit in it, directly or under
    nested dicts, replaced by their results; and those producers, in the
    order of the walk.  A list is a leaf of the walk. *)
Fixpoint resolved (v : pyval) : pyval :=
  match v with
  | PDict entries => PDict (prod_map id resolved <$> entries)
  | _ => producer_result v
  end.

Fixpoint invoked (v : pyval) : list nat :=
  match v with
  | PDict entries => entries ≫= (λ kv, invoked kv.2)
  | _ => producer_calls v
  end.

(** A response whose one prop is a list that holds a producer. *)
Definition list_of_producers : InertiaResponse.t :=
  sample_response (sample_request "GET" [("X-Inertia", "true")])
    [("items", PList [PFunc 7 (PStr "late")])].

(** The deferred props of a prop map as (key, group) pairs, in the order
    of the map. *)
Definition deferred_pairs (props : list (string * pyval)) : list (string * string) :=
  omap (λ kv, match kv.2 with
              | PDeferredProp _ group _ => Some (kv.1, group)
              | _ => None
              end) props.

(** The keys declared for [group], in the order of the map. *)
Definition keys_of_group (pairs : list (string * string)) (group : string)
  : list string :=
  omap (λ kg, if decide (kg.2 = group) then Some kg.1 else None) pairs.

(** The distinct elements of a list, in the order of their first
    occurrence. *)
Fixpoint first_seen (groups : list string) : list string :=
  match groups with
  | [] => []
  | g :: rest => g :: List.filter (λ g', negb (bool_decide (g' = g))) (first_seen rest)
  end.

(** The manifest the specification describes: one entry per group, groups
    in first-seen order, each with its keys in order. *)
Definition manifest_as_specified (props : list (string * pyval))
  : list (string * list string) :=
  (λ group, (group, keys_of_group (deferred_pairs props) group))
    <$> first_seen ((deferred_pairs props).*2).

(** The value that [should_encrypt_history] validates: the override on the
    request state, else the configured default. *)
Definition encrypt_history_value (cfg : settings.InertiaSettings)
    (request : Request.t) : pyval :=
  default (PBool (settings.INERTIA_ENCRYPT_HISTORY cfg))
          (Request.state_encrypt_history request).

Definition defer_group_props : list (string * pyval) :=
  [ ("name", PStr "Brian");
    ("sport", PDeferredProp (PFunc 1 (PStr "Basketball")) "group" false);
    ("team", PDeferredProp (PFunc 2 (PStr "Bulls")) "group" false);
    ("grit", PDeferredProp (PFunc 3 (PStr "intense")) "default" false) ].

Definition first_load_defer_group : InertiaResponse.t :=
  sample_response (sample_request "GET" [("X-Inertia", "true")]) defer_group_props.

Definition partial_defer_group : InertiaResponse.t :=
  sample_response
    (sample_request "GET"
       [ ("X-Inertia", "true");
         ("X-Inertia-Partial-Data", "sport,team");
         ("X-Inertia-Partial-Component", "TestComponent") ])
    defer_group_props.

Definition merge_props : list (string * pyval) :=
  [ ("name", PStr "Brandon");
    ("sport", PMergeProp (PFunc 1 (PStr "Hockey")));
    ("team", PDeferredProp (PFunc 2 (PStr "Penguins")) "default" true) ].

Definition first_load_merge : InertiaResponse.t :=
  sample_response (sample_request "GET" [("X-Inertia", "true")]) merge_props.

Definition partial_merge_reset : InertiaResponse.t :=
  sample_response
    (sample_request "GET"
       [ ("X-Inertia", "true");
         ("X-Inertia-Partial-Data", "sport,team");
         ("X-Inertia-Partial-Component", "TestComponent");
         ("X-Inertia-Reset", "sport,team") ])
    merge_props.

(** The condition under which [dispatch] answers without calling the
    application. *)
Definition short_circuits (cfg : settings.InertiaSettings) (request : Request.t)
  : Prop :=
  is_Some (Request.headers request !! "X-Inertia")
  ∧ Request.method request = "GET"
  ∧ default "" (Request.headers request !! "X-Inertia-Version")
    ≠ settings.INERTIA_VERSION cfg.

(** An application that counts its calls and answers every request with a
    redirect to [/about]. *)
Definition redirecting_app (request : Request.t) (calls : nat)
  : Response.t * nat :=
  (Response.mk "" HTTPStatus_FOUND (hdr [("Location", "/about")]), S calls).

Definition current_inertia_request (method : string) : Request.t :=
  sample_request method [("X-Inertia", "true"); ("X-Inertia-Version", "1.0")].

Definition stale_inertia_request : Request.t :=
  sample_request "GET" [("X-Inertia", "true"); ("X-Inertia-Version", "0.9")].

(** The call [render(request, "TestComponent", {"name": "Brandon"})] on an
    Inertia request; no SSR service, and a template engine in which every
    template renders as its name. *)
Definition inertia_visit : InertiaResponse.t :=
  sample_response (sample_request "GET" [("X-Inertia", "true")])
    [("name", PStr "Brandon")].

Definition no_ssr (url data : string) : InertiaResponse.ssr_reply :=
  InertiaResponse.PostRaised.

Definition name_of_template (template_name : string)
  : outcome InertiaResponse.template :=
  Return (λ context, Return template_name).

(** A first visit with template data, SSR switched on. *)
Definition ssr_settings : settings.InertiaSettings :=
  {| settings.INERTIA_VERSION := "1.0";
     settings.INERTIA_SSR_URL := "http://localhost:13714";
     settings.INERTIA_SSR_ENABLED := true;
     settings.INERTIA_ENCRYPT_HISTORY := false;
     settings.INERTIA_LAYOUT := "base.html" |}.

Definition visit_with_template_data : InertiaResponse.t :=
  InertiaResponse.mk (sample_request "GET" []) "TestComponent"
    [("name", PStr "Brian")] [("title", PStr "Greetings")] HTTPStatus_OK ∅.




(** The shared data and the home page of [main.py]. *)
Definition main_shared_data (request : Request.t) : list (string * pyval) :=
  [ ("user", PDict [("name", PStr "Example User")]);
    ("app_name", PStr "FastAPI Inertia Example") ].

Definition main_home_props : list (string * pyval) :=
  [ ("title", PStr "Welcome to FastAPI Inertia");
    ("message", PStr "This is an example Inertia.js page with FastAPI") ].

Definition plain_request : Request.t := sample_request "GET" [].

(** A response object for [request], everything else as in [self]. *)
Definition with_request (self : InertiaResponse.t) (request : Request.t)
  : InertiaResponse.t :=
  InertiaResponse.mk request (InertiaResponse.component self)
    (InertiaResponse.props self) (InertiaResponse.template_data self)
    (InertiaResponse.status_code self) (InertiaResponse.headers self).

(** A value with no callable in it, at any depth, lists included. *)
Fixpoint callable_free (v : pyval) : bool :=
  match v with
  | PNone | PBool _ | PInt _ | PStr _ => true
  | PList items => forallb callable_free items
  | PDict entries => forallb (λ kv, callable_free kv.2) entries
  | PFunc _ _ | POptionalProp _ | PDeferredProp _ _ _ | PMergeProp _ => false
  end.

(** The computation ended with a value. *)
Definition returns {A} (r : outcome A) : Prop := ∃ a, r = Return a.

(** The props of the page: the surviving entries, resolved. *)
Definition page_props (self : InertiaResponse.t) : list (string * pyval) :=
  prod_map id resolved <$> InertiaResponse.filtered_props self.

(** A first visit whose template data names the layout. *)
Definition visit_naming_the_layout : InertiaResponse.t :=
  InertiaResponse.mk plain_request "TestComponent"
    [("name", PStr "Brian")] [("inertia_layout", PStr "mine.html")]
    HTTPStatus_OK ∅.

(** A value with no producer where the walk of [deep_transform_callables]
    looks: at the value itself and under nested dicts. *)
Fixpoint producer_free (v : pyval) : bool :=
  match v with
  | PDict entries => forallb (λ kv, producer_free kv.2) entries
  | PFunc _ _ | POptionalProp _ | PDeferredProp _ _ _ | PMergeProp _ => false
  | _ => true
  end.

(** [sep.join(l)] for a one-character separator. *)
Fixpoint join (sep : ascii) (l : list string) : string :=
  match l with
  | [] => ""
  | [s] => s
  | s :: rest => s +:+ String sep (join sep rest)
  end.

(** The character occurs in the string. *)
Fixpoint occurs (c : ascii) (s : string) : bool :=
  match s with
  | EmptyString => false
  | String c' rest => Ascii.eqb c' c || occurs c rest
  end.

(** The number of keys a manifest lists. *)
Definition listed (manifest : list (string * list string)) : list string :=
  mjoin manifest.*2.

(** A deferred prop shared through the request state. *)
Definition shared_deferred : InertiaResponse.t :=
  sample_response
    (share.share (sample_request "GET" [("X-Inertia", "true")])
       [("feed", PDeferredProp (PFunc 5 (PList [])) "default" true)])
    [("name", PStr "Brian")].

(** How many calls [x() if callable(x) else x] goes through at most. *)
Fixpoint call_depth (x : pyval) : nat :=
  match x with
  | PFunc _ result => S (call_depth result)
  | POptionalProp prop | PDeferredProp prop _ _ | PMergeProp prop =>
      S (call_depth prop)
  | _ => 0
  end.

(** An SSR service that answers with an empty JSON object, and one whose
    object names the layout. *)
Definition empty_ssr_reply (url data : string) : InertiaResponse.ssr_reply :=
  InertiaResponse.JsonValue (PDict []).

Definition layout_in_ssr_reply (url data : string) : InertiaResponse.ssr_reply :=
  InertiaResponse.JsonValue (PDict [("inertia_layout", PStr "theirs.html")]).

(** A template directory without templates. *)
Definition no_templates (template_name : string)
  : outcome InertiaResponse.template :=
  Raise (TemplateNotFound template_name).

(** * Properties *)

(** ** The embedding on the cases of the test-suite *)

Example split_keys : split comma "sport,grit" = ["sport"; "grit"].
Proof. reflexivity. Qed.

Example split_untrimmed : split comma "sport, grit," = ["sport"; " grit"; ""].
Proof. reflexivity. Qed.

Example split_empty : split comma "" = [""].
Proof. reflexivity. Qed.

Example dict_merge_explicit_wins :
  dict_merge [("user", PStr "shared"); ("app", PStr "x")] [("user", PStr "mine")]
  = [("user", PStr "mine"); ("app", PStr "x")].
Proof. reflexivity. Qed.

Example dumps_list : json_encode (PList [PInt (-3); PBool true; PNone]) = Return "[-3, true, null]".
Proof. reflexivity. Qed.

Example dumps_producer :
  json_encode (PList [PFunc 7 PNone])
  = Raise (TypeError "Object of type function is not JSON serializable").
Proof. reflexivity. Qed.

(** [test_merge_props_are_included_on_initial_load]. *)
Example page_data_merge_first_load :
  InertiaResponse._build_page_data settings.defaults first_load_merge []
  = (Return
       [ ("component", PStr "TestComponent");
         ("props", PDict [("name", PStr "Brandon"); ("sport", PStr "Hockey")]);
         ("url", PStr "http://testserver/page/");
         ("version", PStr "1.0");
         ("encryptHistory", PBool false);
         ("clearHistory", PBool false);
         ("deferredProps", PDict [("default", PList [PStr "team"])]);
         ("mergeProps", PList [PStr "sport"; PStr "team"]) ],
     [1%nat]).
Proof. reflexivity. Qed.

(** The request of [test_merge_props_are_not_included_when_reset]: the page
    is that of a first load, not the one the test describes. *)
Example page_data_merge_reset :
  InertiaResponse._build_page_data settings.defaults partial_merge_reset []
  = (Return
       [ ("component", PStr "TestComponent");
         ("props", PDict [("name", PStr "Brandon"); ("sport", PStr "Hockey")]);
         ("url", PStr "http://testserver/page/");
         ("version", PStr "1.0");
         ("encryptHistory", PBool false);
         ("clearHistory", PBool false);
         ("deferredProps", PDict [("default", PList [PStr "team"])]);
         ("mergeProps", PList [PStr "sport"; PStr "team"]) ],
     [1%nat]).
Proof. reflexivity. Qed.

(** The two ways of reading a header: the middleware asks the framework's
    [Headers], [InertiaRequest] asks the dict made of it. *)
Example headers_of_the_scope :
  Request.scope_headers stale_inertia_request
  = [("x-inertia", "true"); ("x-inertia-version", "0.9")].
Proof. reflexivity. Qed.

Example middleware_reads_the_header :
  Request.headers stale_inertia_request !! "X-Inertia-Version" = Some "0.9".
Proof. reflexivity. Qed.

Example inertia_request_headers :
  InertiaRequest.headers stale_inertia_request
  = [("x-inertia", "true"); ("x-inertia-version", "0.9")].
Proof. reflexivity. Qed.

Example repeated_header_first_value :
  InertiaRequest.headers
    (sample_request "GET" [("Accept", "text/html"); ("ACCEPT", "*/*")])
  = [("accept", "text/html")].
Proof. reflexivity. Qed.

(** A request-scoped override that is not a boolean is a [TypeError], raised
    after the producers have run. *)
Example page_data_bad_override :
  InertiaResponse._build_page_data settings.defaults
    (sample_response
       (Request.mk "GET" "http://testserver/page/" [] None (Some (PStr "yes")))
       merge_props) []
  = (Raise (TypeError "Expected bool for encrypt_history, got str"), [1%nat]).
Proof. reflexivity. Qed.

(** ** Dictionaries *)

Section dict_facts.
Context {V : Type}.
Implicit Types (d : list (string * V)) (k : string) (v : V).

Lemma dict_get_None d k : dict_get d k = None ↔ k ∉ dict_keys d.
Proof.
  unfold dict_keys. induction d as [|[k' v'] d IH]; csimpl.
  - split; [intros _; apply not_elem_of_nil | done].
  - rewrite not_elem_of_cons. destruct (decide (k' = k)) as [->|Hne].
    + split; [done | intros [? _]; done].
    + rewrite IH. split; [intros ?; split; [congruence | done] | tauto].
Qed.

Lemma dict_get_Some_elem d k v : dict_get d k = Some v → (k, v) ∈ d.
Proof.
  induction d as [|[k' v'] d IH]; csimpl; [done|].
  destruct (decide (k' = k)) as [->|Hne].
  - intros [= ->]. apply list_elem_of_here.
  - intros H. apply list_elem_of_further, IH, H.
Qed.

Lemma dict_get_elem_NoDup d k v :
  NoDup (dict_keys d) → (k, v) ∈ d → dict_get d k = Some v.
Proof.
  unfold dict_keys. induction d as [|[k' v'] d IH]; csimpl.
  - intros _ H. by apply elem_of_nil in H.
  - rewrite NoDup_cons. intros [Hk' Hnd] Hin.
    apply elem_of_cons in Hin as [[= -> ->]|Hin].
    + by rewrite decide_True.
    + rewrite decide_False; [by apply IH|].
      intros ->. apply Hk'. apply list_elem_of_fmap. by exists (k, v).
Qed.

Lemma dict_get_set_eq d k v : dict_get (dict_set d k v) k = Some v.
Proof.
  induction d as [|[k' v'] d IH]; csimpl.
  - by rewrite decide_True.
  - destruct (decide (k' = k)) as [->|Hne]; csimpl.
    + by rewrite decide_True.
    + by rewrite decide_False.
Qed.

Lemma dict_get_set_ne d k k' v :
  k ≠ k' → dict_get (dict_set d k v) k' = dict_get d k'.
Proof.
  intros Hne. induction d as [|[k0 v0] d IH]; csimpl.
  - by rewrite decide_False.
  - destruct (decide (k0 = k)) as [->|Hne0]; csimpl.
    + by rewrite !decide_False.
    + by rewrite IH.
Qed.

Lemma dict_keys_set d k v :
  dict_keys (dict_set d k v)
  = if decide (k ∈ dict_keys d) then dict_keys d else dict_keys d ++ [k].
Proof.
  unfold dict_keys. induction d as [|[k0 v0] d IH]; csimpl.
  - done.
  - destruct (decide (k0 = k)) as [->|Hne0]; csimpl.
    + rewrite decide_True; [done | apply list_elem_of_here].
    + rewrite IH. destruct (decide (k ∈ d.*1)) as [Hin|Hnin].
      * rewrite decide_True; [done | by apply list_elem_of_further].
      * rewrite decide_False; [done|].
        rewrite not_elem_of_cons. split; [congruence | done].
Qed.

Lemma dict_set_NoDup d k v :
  NoDup (dict_keys d) → NoDup (dict_keys (dict_set d k v)).
Proof.
  intros Hnd. rewrite dict_keys_set. case_decide; [done|].
  apply NoDup_app. split_and!; [done | | apply NoDup_singleton].
  intros x Hx Hx'. apply list_elem_of_singleton in Hx' as ->. done.
Qed.

Lemma dict_update_NoDup d other :
  NoDup (dict_keys d) → NoDup (dict_keys (dict_update d other)).
Proof.
  unfold dict_update. revert d.
  induction other as [|[k v] other IH]; intros d Hnd; csimpl; [done|].
  apply IH. by apply dict_set_NoDup.
Qed.

Lemma dict_merge_NoDup (a b : list (string * V)) :
  NoDup (dict_keys (dict_merge a b)).
Proof. apply dict_update_NoDup, dict_update_NoDup. apply NoDup_nil_2. Qed.

Lemma dict_update_get d other k :
  NoDup (dict_keys other) →
  dict_get (dict_update d other) k
  = match dict_get other k with Some v => Some v | None => dict_get d k end.
Proof.
  unfold dict_update, dict_keys. revert d.
  induction other as [|[k0 v0] other IH]; intros d Hnd; csimpl; [done|].
  apply NoDup_cons in Hnd as [Hk0 Hnd]. rewrite IH by done.
  destruct (decide (k0 = k)) as [->|Hne].
  - assert (dict_get other k = None) as -> by by apply dict_get_None.
    apply dict_get_set_eq.
  - by rewrite dict_get_set_ne.
Qed.

Lemma dict_del_absent d k : k ∉ dict_keys d → dict_del d k = d.
Proof.
  unfold dict_keys. induction d as [|[k' v'] d IH]; csimpl; [done|].
  rewrite not_elem_of_cons. intros [Hne Hnin].
  rewrite decide_False by congruence. by rewrite IH.
Qed.

Lemma dict_del_app d1 d2 k :
  dict_del (d1 ++ d2) k = dict_del d1 k ++ dict_del d2 k.
Proof.
  induction d1 as [|[k' v'] d1 IH]; csimpl; [done|].
  case_decide; csimpl; by rewrite IH.
Qed.

Lemma dict_get_app d1 d2 k :
  dict_get (d1 ++ d2) k
  = match dict_get d1 k with Some v => Some v | None => dict_get d2 k end.
Proof.
  induction d1 as [|[k' v'] d1 IH]; csimpl; [done|]. by case_decide.
Qed.

End dict_facts.

Lemma dict_merge_get_right {V} (a b : list (string * V)) k v :
  NoDup (dict_keys b) → (k, v) ∈ b → dict_get (dict_merge a b) k = Some v.
Proof.
  intros Hnd Hin. unfold dict_merge. rewrite dict_update_get by done.
  by rewrite (dict_get_elem_NoDup b k v Hnd Hin).
Qed.

(** ** A loop that deletes keys while walking a snapshot of them *)

Section filter_loop.
Context {V : Type}.
Variable keep : string → V → bool.
Variable step : list (string * V) → string → list (string * V).
Hypothesis step_spec : ∀ acc k v,
  dict_get acc k = Some v → step acc k = if keep k v then acc else dict_del acc k.

Lemma dict_filter_app (d1 d2 : list (string * V)) :
  dict_filter keep (d1 ++ d2) = dict_filter keep d1 ++ dict_filter keep d2.
Proof. apply List.filter_app. Qed.

Lemma dict_filter_elem (d : list (string * V)) k v :
  (k, v) ∈ dict_filter keep d ↔ (k, v) ∈ d ∧ keep k v = true.
Proof. unfold dict_filter. rewrite !list_elem_of_In. apply List.filter_In. Qed.

Lemma dict_filter_keys_absent (d : list (string * V)) k :
  k ∉ dict_keys d → k ∉ dict_keys (dict_filter keep d).
Proof.
  unfold dict_keys. intros Hk Hin. apply Hk.
  apply list_elem_of_fmap in Hin as [[k' v] [-> Hin]].
  apply dict_filter_elem in Hin as [Hin _].
  apply list_elem_of_fmap. by exists (k', v).
Qed.

Lemma dict_filter_NoDup (d : list (string * V)) :
  NoDup (dict_keys d) → NoDup (dict_keys (dict_filter keep d)).
Proof.
  unfold dict_keys. induction d as [|[k v] d IH]; csimpl; [done|].
  rewrite NoDup_cons. intros [Hk Hnd]. unfold dict_filter in *. simpl.
  destruct (keep k v); csimpl; [|by apply IH].
  apply NoDup_cons. split; [|by apply IH].
  by apply (dict_filter_keys_absent d k).
Qed.

Lemma filter_loop_from (pre suf : list (string * V)) :
  NoDup (dict_keys (pre ++ suf)) →
  fold_left step (dict_keys suf) (dict_filter keep pre ++ suf)
  = dict_filter keep (pre ++ suf).
Proof.
  revert pre. induction suf as [|[k v] suf IH]; intros pre Hnd; csimpl.
  - by rewrite !app_nil_r.
  - assert ((k ∉ dict_keys pre) ∧ (k ∉ dict_keys suf)) as [Hpre Hsuf].
    { unfold dict_keys in *. rewrite fmap_app in Hnd. csimpl in Hnd.
      apply NoDup_app in Hnd as (_ & Hdisj & Hnd').
      apply NoDup_cons in Hnd' as [? _]. split; [|done].
      intros Hin. apply (Hdisj k Hin). apply list_elem_of_here. }
    assert (k ∉ dict_keys (dict_filter keep pre)) as Hpre'.
    { by apply dict_filter_keys_absent. }
    assert (dict_get (dict_filter keep pre ++ (k, v) :: suf) k = Some v) as Hget.
    { rewrite dict_get_app. apply dict_get_None in Hpre' as ->.
      csimpl. by rewrite decide_True. }
    rewrite (step_spec _ _ _ Hget).
    replace (pre ++ (k, v) :: suf) with ((pre ++ [(k, v)]) ++ suf) in *
      by by rewrite <- app_assoc.
    rewrite <- (IH (pre ++ [(k, v)]) Hnd). f_equal.
    rewrite dict_filter_app. unfold dict_filter at 3. simpl.
    destruct (keep k v).
    + by rewrite <- app_assoc.
    + rewrite app_nil_r.
      rewrite dict_del_app, (dict_del_absent _ _ Hpre'). csimpl.
      rewrite decide_True by done. by rewrite (dict_del_absent _ _ Hsuf).
Qed.

Lemma filter_loop (d : list (string * V)) :
  NoDup (dict_keys d) →
  fold_left step (dict_keys d) d = dict_filter keep d.
Proof. intros Hnd. by apply (filter_loop_from [] d). Qed.

End filter_loop.

(** ** The prop inclusion filter *)

Section inclusion_filter.
Variable self : InertiaResponse.t.

Let request := InertiaResponse.inertia_request self.
Let merged := InertiaResponse.merged_props self.

Lemma filter_step_keeps acc key v :
  dict_get acc key = Some v →
  InertiaResponse.filter_step self acc key
  = if keeps self key v then acc else dict_del acc key.
Proof.
  intros Hget. unfold InertiaResponse.filter_step, keeps, partial_render.
  fold request. rewrite Hget.
  destruct (InertiaRequest.is_a_partial_render _ _).
  - by destruct (bool_decide _).
  - by destruct (prop_classes.isinstance_IgnoreOnFirstLoadProp v).
Qed.

Lemma filtered_props_filter :
  InertiaResponse.filtered_props self = dict_filter (keeps self) merged.
Proof.
  unfold InertiaResponse.filtered_props. fold merged.
  apply filter_loop; [apply filter_step_keeps | apply dict_merge_NoDup].
Qed.

Lemma filtered_props_NoDup :
  NoDup (dict_keys (InertiaResponse.filtered_props self)).
Proof.
  rewrite filtered_props_filter. apply dict_filter_NoDup, dict_merge_NoDup.
Qed.

Lemma filtered_props_key key v :
  dict_get merged key = Some v →
  key ∈ dict_keys (InertiaResponse.filtered_props self) ↔ keeps self key v = true.
Proof.
  intros Hget. rewrite filtered_props_filter. unfold dict_keys. split.
  - intros Hin. apply list_elem_of_fmap in Hin as [[k' v'] [Hk Hin]].
    simpl in Hk. subst k'. apply dict_filter_elem in Hin as [Hin Hkeep].
    apply (dict_get_elem_NoDup _ _ _ (dict_merge_NoDup _ _)) in Hin.
    fold (InertiaResponse.merged_props self) in Hin. fold merged in Hin.
    congruence.
  - intros Hkeep. apply list_elem_of_fmap. exists (key, v). split; [done|].
    apply dict_filter_elem. split; [|done]. by apply dict_get_Some_elem.
Qed.

End inclusion_filter.

(** ** The headers as [InertiaRequest] reads them *)

Lemma lower_char_idemp c : lower_char (lower_char c) = lower_char c.
Proof. by destruct c as [[] [] [] [] [] [] [] []]. Qed.

Lemma lower_idemp s : lower (lower s) = lower s.
Proof. induction s as [|c s IH]; simpl; [done|]. by rewrite lower_char_idemp, IH. Qed.

Lemma scope_names_lower request key :
  key ∈ Headers.keys (Request.headers request) → lower key = key.
Proof.
  unfold Headers.keys, Request.headers, Request.scope_headers. simpl.
  rewrite <- list_fmap_compose. intros Hin.
  apply list_elem_of_fmap in Hin as (field & -> & _). simpl. apply lower_idemp.
Qed.

(** No [KeyError] while the dict is made. *)
Lemma headers_getitem_bound request key :
  key ∈ Headers.keys (Request.headers request) →
  is_Some (Request.headers request !! key).
Proof.
  intros Hin. unfold lookup, headers_lookup, Headers.__getitem__.
  rewrite (scope_names_lower request key Hin).
  apply not_eq_None_Some. rewrite dict_get_None. intros Hnot. by apply Hnot.
Qed.

Section dict_of_mapping.
Variable getitem : string → option string.

Lemma dict_of_mapping_get (keys : list string) (d : list (string * string)) name :
  dict_get
    (fold_left (λ d key,
                  match getitem key with
                  | Some value => dict_set d key value
                  | None => d
                  end) keys d) name
  = if decide (name ∈ keys)
    then match getitem name with Some value => Some value | None => dict_get d name end
    else dict_get d name.
Proof.
  revert d. induction keys as [|key keys IH]; intros d; simpl; [done|].
  rewrite IH. destruct (decide (key = name)) as [->|Hne].
  - rewrite (decide_True (P := name ∈ name :: keys)) by apply list_elem_of_here.
    destruct (getitem name) as [value|] eqn:Hvalue.
    + rewrite dict_get_set_eq. by case_decide.
    + by case_decide.
  - assert (dict_get match getitem key with
                     | Some value => dict_set d key value
                     | None => d
                     end name = dict_get d name) as ->.
    { destruct (getitem key); [by apply dict_get_set_ne | done]. }
    destruct (decide (name ∈ keys)) as [Hin|Hnin].
    + rewrite decide_True; [done | by apply list_elem_of_further].
    + rewrite decide_False; [done|].
      rewrite not_elem_of_cons. split; [congruence | done].
Qed.

Lemma dict_of_mapping_NoDup (keys : list string) (d : list (string * string)) :
  NoDup (dict_keys d) →
  NoDup (dict_keys
           (fold_left (λ d key,
                         match getitem key with
                         | Some value => dict_set d key value
                         | None => d
                         end) keys d)).
Proof.
  revert d. induction keys as [|key keys IH]; intros d Hnd; simpl; [done|].
  apply IH. destruct (getitem key); [by apply dict_set_NoDup | done].
Qed.

End dict_of_mapping.

(** The dict has an entry exactly under the lower-case names, and there it
    holds what the framework's lookup gives. *)
Lemma inertia_request_headers_get request name :
  dict_get (InertiaRequest.headers request) name
  = if decide (lower name = name) then Request.headers request !! name else None.
Proof.
  unfold InertiaRequest.headers.
  rewrite (dict_of_mapping_get (λ key, Request.headers request !! key)). simpl.
  destruct (decide (name ∈ Headers.keys (Request.headers request))) as [Hin|Hnin].
  - rewrite decide_True by by apply (scope_names_lower request).
    by destruct (Request.headers request !! name).
  - case_decide as Hlower; [|done].
    unfold lookup, headers_lookup, Headers.__getitem__. rewrite Hlower.
    symmetry. by apply dict_get_None.
Qed.

Lemma capitalised_name_not_read request name :
  lower name ≠ name →
  InertiaRequest.has_header request name = false
  ∧ InertiaRequest.get_header request name = "".
Proof.
  intros Hname. unfold InertiaRequest.has_header, InertiaRequest.get_header.
  rewrite inertia_request_headers_get, decide_False by done.
  split; [|done]. apply bool_decide_eq_false. by intros [? ?].
Qed.

Lemma is_inertia_never request : InertiaRequest.is_inertia request = false.
Proof. by apply capitalised_name_not_read. Qed.

Lemma is_a_partial_render_never request component :
  InertiaRequest.is_a_partial_render request component = false.
Proof.
  unfold InertiaRequest.is_a_partial_render.
  by rewrite (proj1 (capitalised_name_not_read request "X-Inertia-Partial-Data"
                       ltac:(done))).
Qed.

Lemma partial_render_never self : partial_render self = false.
Proof. apply is_a_partial_render_never. Qed.

Lemma reset_keys_never request : InertiaRequest.reset_keys request = [""].
Proof.
  unfold InertiaRequest.reset_keys.
  by rewrite (proj2 (capitalised_name_not_read request "X-Inertia-Reset"
                       ltac:(done))).
Qed.

Lemma partial_keys_never request : InertiaRequest.partial_keys request = [""].
Proof.
  unfold InertiaRequest.partial_keys.
  by rewrite (proj2 (capitalised_name_not_read request "X-Inertia-Partial-Data"
                       ltac:(done))).
Qed.

Lemma isinstance_IgnoreOnFirstLoadProp_variant v :
  prop_classes.isinstance_IgnoreOnFirstLoadProp v = true
  ↔ (∃ prop, v = POptionalProp prop)
    ∨ (∃ prop group merge, v = PDeferredProp prop group merge).
Proof.
  split.
  - destruct v; simpl; try discriminate; intros _; [left | right]; eauto.
  - intros [[? ->]|(? & ? & ? & ->)]; done.
Qed.

Lemma first_load_filtered_props self :
  InertiaResponse.filtered_props self
  = dict_filter (λ _ v, negb (prop_classes.isinstance_IgnoreOnFirstLoadProp v))
      (InertiaResponse.merged_props self).
Proof.
  rewrite filtered_props_filter. unfold dict_filter, keeps.
  by rewrite partial_render_never.
Qed.

Lemma filtered_props_key_first_load self key v :
  dict_get (InertiaResponse.merged_props self) key = Some v →
  key ∈ dict_keys (InertiaResponse.filtered_props self)
  ↔ prop_classes.isinstance_IgnoreOnFirstLoadProp v = false.
Proof.
  intros Hget. rewrite (filtered_props_key self key v Hget). unfold keeps.
  rewrite partial_render_never. apply negb_true_iff.
Qed.

(** C1.  The partial branch of the filter is never taken.
    [is_a_partial_render] asks the dict made of [request.headers] for the
    capitalised header names, and the keys of that dict are in lower case.
    So for every request [_build_props] applies the first-load rule: a key
    of the merged prop map is dropped exactly when its value is an
    [OptionalProp] or a [DeferredProp].  For a request that names the
    component and asks for keys in [X-Inertia-Partial-Data], an
    [OptionalProp] that was asked for is dropped and a prop of another kind
    that was not asked for is kept. *)
Theorem build_props_inclusion_filter (self : InertiaResponse.t) (key : string) (v : pyval) :
  dict_get (InertiaResponse.merged_props self) key = Some v →
  (key ∉ dict_keys (InertiaResponse.filtered_props self)
   ↔ (∃ prop, v = POptionalProp prop)
     ∨ (∃ prop group merge, v = PDeferredProp prop group merge))
  ∧ (∀ value,
       Request.headers (InertiaResponse.inertia_request self)
         !! "X-Inertia-Partial-Data" = Some value →
       Request.headers (InertiaResponse.inertia_request self)
         !! "X-Inertia-Partial-Component" = Some (InertiaResponse.component self) →
       partial_render self = false
       ∧ (key ∈ split comma value → (∃ prop, v = POptionalProp prop) →
          key ∉ dict_keys (InertiaResponse.filtered_props self))
       ∧ (key ∉ split comma value →
          prop_classes.isinstance_IgnoreOnFirstLoadProp v = false →
          key ∈ dict_keys (InertiaResponse.filtered_props self))).
Proof.
  intros Hget.
  pose proof (filtered_props_key_first_load self key v Hget) as Hkept.
  assert (key ∉ dict_keys (InertiaResponse.filtered_props self)
          ↔ (∃ prop, v = POptionalProp prop)
            ∨ (∃ prop group merge, v = PDeferredProp prop group merge)) as Hdrop.
  { rewrite Hkept, <- isinstance_IgnoreOnFirstLoadProp_variant.
    by destruct (prop_classes.isinstance_IgnoreOnFirstLoadProp v). }
  split; [exact Hdrop|].
  intros value _ _. split_and!.
  - apply partial_render_never.
  - intros _ Hoptional. apply Hdrop. by left.
  - intros _ Hplain. by apply Hkept.
Qed.

Lemma build_props_inclusion_filter_witness :
  dict_get (InertiaResponse.merged_props partial_optional) "sport"
    = Some (POptionalProp (PFunc 1 (PStr "Basketball")))
  ∧ Request.headers (InertiaResponse.inertia_request partial_optional)
      !! "X-Inertia-Partial-Data" = Some "sport,grit"
  ∧ Request.headers (InertiaResponse.inertia_request partial_optional)
      !! "X-Inertia-Partial-Component" = Some "TestComponent"
  ∧ "sport" ∈ split comma "sport,grit"
  ∧ ("sport" ∉ dict_keys (InertiaResponse.filtered_props partial_optional))
  ∧ ("name" ∉ split comma "sport,grit")
  ∧ "name" ∈ dict_keys (InertiaResponse.filtered_props partial_optional).
Proof.
  assert ("sport" ∈ split comma "sport,grit") as Hasked
    by apply list_elem_of_here.
  assert ("name" ∉ split comma "sport,grit") as Hnot.
  { refine (bool_decide_unpack _ _). vm_compute. exact I. }
  split; [reflexivity|]. split; [reflexivity|]. split; [reflexivity|].
  split; [exact Hasked|]. split; [|split; [exact Hnot|]].
  - destruct (build_props_inclusion_filter partial_optional "sport"
                (POptionalProp (PFunc 1 (PStr "Basketball"))) eq_refl)
      as [_ Hpartial].
    destruct (Hpartial "sport,grit" eq_refl eq_refl) as (_ & Hdropped & _).
    apply (Hdropped Hasked). by eexists.
  - destruct (build_props_inclusion_filter partial_optional "name"
                (PStr "Brian") eq_refl) as [_ Hpartial].
    destruct (Hpartial "sport,grit" eq_refl eq_refl) as (_ & _ & Hkept).
    exact (Hkept Hnot eq_refl).
Defined.

(** ** Recognising a partial render *)

(** C2.  A request that carries the [X-Inertia-Partial-Data] header and
    whose [X-Inertia-Partial-Component] header equals the component name is
    not treated as a partial render: [is_a_partial_render] is false for it,
    as it is for every request (it looks the capitalised names up in a dict
    with lower-case keys), and the first-load filter is what [_build_props]
    applies. *)
Theorem partial_render_decision (self : InertiaResponse.t) :
  partial_render_as_specified
    (InertiaResponse.inertia_request self) (InertiaResponse.component self) →
  InertiaRequest.is_a_partial_render
    (InertiaResponse.inertia_request self) (InertiaResponse.component self) = false
  ∧ InertiaRequest.has_header (InertiaResponse.inertia_request self)
      "X-Inertia-Partial-Data" = false
  ∧ InertiaRequest.get_header (InertiaResponse.inertia_request self)
      "X-Inertia-Partial-Component" = ""
  ∧ InertiaResponse.filtered_props self
    = dict_filter (λ _ v, negb (prop_classes.isinstance_IgnoreOnFirstLoadProp v))
        (InertiaResponse.merged_props self).
Proof.
  intros _. split_and!.
  - apply is_a_partial_render_never.
  - by apply capitalised_name_not_read.
  - by apply capitalised_name_not_read.
  - apply first_load_filtered_props.
Qed.

Lemma partial_render_decision_witness :
  partial_render_as_specified
    (InertiaResponse.inertia_request partial_optional) "TestComponent"
  ∧ InertiaRequest.is_a_partial_render
      (InertiaResponse.inertia_request partial_optional) "TestComponent" = false
  ∧ InertiaResponse.filtered_props partial_optional = [("name", PStr "Brian")].
Proof.
  assert (partial_render_as_specified
            (InertiaResponse.inertia_request partial_optional)
            (InertiaResponse.component partial_optional)) as Hspecified.
  { split; [exact (mk_is_Some _ _ eq_refl) | reflexivity]. }
  split; [exact Hspecified|].
  destruct (partial_render_decision partial_optional Hspecified)
    as (Hnot & _ & _ & Hfull).
  split; [exact Hnot|]. rewrite Hfull. reflexivity.
Defined.

(** ** Resolving the producers *)

Lemma call_if_callable_not_callable x :
  prop_classes.callable x = false → producer_result x = x ∧ producer_calls x = [].
Proof. by destruct x. Qed.

Lemma call_if_callable_run x log :
  prop_classes.call_if_callable x log
  = (Return (producer_result x), log ++ producer_calls x).
Proof.
  induction x; simpl; unfold ret, invoke; rewrite ?app_nil_r; done.
Qed.

Lemma for_each_key_run (f : pyval → M pyval) (g : pyval → pyval)
    (calls : pyval → list nat) entries :
  Forall (λ kv, ∀ log, f kv.2 log = (Return (g kv.2), log ++ calls kv.2)) entries →
  ∀ log, helpers.for_each_key f entries log
         = (Return (prod_map id g <$> entries),
            log ++ (entries ≫= (λ kv, calls kv.2))).
Proof.
  induction 1 as [|[k x] rest Hx _ IH]; intros log; csimpl.
  - unfold ret. by rewrite app_nil_r.
  - unfold bind. simpl in Hx. rewrite Hx, IH. unfold ret.
    by rewrite app_assoc.
Qed.

Lemma deep_transform_callables_run v :
  ∀ log, helpers.deep_transform_callables v log
         = (Return (resolved v), log ++ invoked v).
Proof.
  induction v as [| | | |items _|entries IH| | | |] using pyval_nested_ind;
    intros log; try apply call_if_callable_run.
  simpl. unfold bind.
  by rewrite (for_each_key_run _ resolved invoked entries IH).
Qed.

Lemma build_props_run self log :
  InertiaResponse._build_props self log
  = (Return (PDict (prod_map id resolved <$> InertiaResponse.filtered_props self)),
     log ++ (InertiaResponse.filtered_props self ≫= (λ kv, invoked kv.2))).
Proof. unfold InertiaResponse._build_props. apply deep_transform_callables_run. Qed.

Section distinct_producers.
Context {A : Type}.
Variable calls : A → list nat.




End distinct_producers.




(** ** The deferred-prop manifest *)

Lemma setdefault_append_keys d group key :
  dict_keys (InertiaResponse.setdefault_append d group key)
  = if decide (group ∈ dict_keys d) then dict_keys d else dict_keys d ++ [group].
Proof.
  unfold InertiaResponse.setdefault_append.
  destruct (dict_get d group); apply dict_keys_set.
Qed.

Lemma setdefault_append_get d group key group' :
  dict_get (InertiaResponse.setdefault_append d group key) group'
  = if decide (group = group')
    then Some (default [] (dict_get d group) ++ [key])
    else dict_get d group'.
Proof.
  unfold InertiaResponse.setdefault_append.
  destruct (decide (group = group')) as [<-|Hne].
  - destruct (dict_get d group); by rewrite dict_get_set_eq.
  - destruct (dict_get d group); by rewrite dict_get_set_ne.
Qed.

Lemma setdefault_append_NoDup d group key :
  NoDup (dict_keys d) →
  NoDup (dict_keys (InertiaResponse.setdefault_append d group key)).
Proof.
  unfold InertiaResponse.setdefault_append.
  destruct (dict_get d group); apply dict_set_NoDup.
Qed.

(** The loop of [_build_deferred_props], on the (key, group) pairs. *)
Lemma deferred_loop_pairs props acc :
  fold_left (λ acc kv,
               match kv.2 with
               | PDeferredProp _ group _ =>
                   InertiaResponse.setdefault_append acc group kv.1
               | _ => acc
               end) props acc
  = fold_left (λ acc kg, InertiaResponse.setdefault_append acc kg.2 kg.1)
      (deferred_pairs props) acc.
Proof.
  revert acc. induction props as [|[k v] props IH]; intros acc; [done|].
  unfold deferred_pairs. csimpl. destruct v; csimpl; by rewrite IH.
Qed.

Lemma filter_filter_absorb {A} (p q : A → bool) (l : list A) :
  (∀ x, p x = true → q x = true) →
  List.filter p (List.filter q l) = List.filter p l.
Proof.
  intros Hpq. induction l as [|x l IH]; simpl; [done|].
  destruct (q x) eqn:Hq; simpl.
  - by rewrite IH.
  - destruct (p x) eqn:Hp; [|done]. apply Hpq in Hp. congruence.
Qed.

Lemma grouped_keys pairs acc :
  dict_keys (fold_left (λ acc kg, InertiaResponse.setdefault_append acc kg.2 kg.1)
               pairs acc)
  = dict_keys acc
    ++ List.filter (λ g, negb (bool_decide (g ∈ dict_keys acc))) (first_seen pairs.*2).
Proof.
  revert acc. induction pairs as [|[k g] pairs IH]; intros acc; csimpl.
  - by rewrite app_nil_r.
  - rewrite IH, setdefault_append_keys.
    destruct (decide (g ∈ dict_keys acc)) as [Hin|Hnin].
    + rewrite (bool_decide_eq_true_2 _ Hin). simpl. f_equal. symmetry.
      apply filter_filter_absorb. intros x Hx.
      apply negb_true_iff, bool_decide_eq_false in Hx.
      apply negb_true_iff, bool_decide_eq_false. by intros ->.
    + rewrite (bool_decide_eq_false_2 _ Hnin). simpl.
      rewrite <- app_assoc. simpl. do 2 f_equal.
      rewrite <- (filter_filter_absorb
                    (λ g', negb (bool_decide (g' ∈ dict_keys acc ++ [g])))
                    (λ g', negb (bool_decide (g' = g)))).
      * apply List.filter_ext_in. intros x Hx.
        apply List.filter_In in Hx as [_ Hx].
        apply negb_true_iff, bool_decide_eq_false in Hx.
        f_equal. apply bool_decide_ext.
        rewrite elem_of_app, list_elem_of_singleton. tauto.
      * intros x Hx. apply negb_true_iff, bool_decide_eq_false in Hx.
        apply negb_true_iff, bool_decide_eq_false. intros ->.
        apply Hx, elem_of_app. right. apply list_elem_of_here.
Qed.

Lemma grouped_get pairs acc group :
  dict_get (fold_left (λ acc kg, InertiaResponse.setdefault_append acc kg.2 kg.1)
              pairs acc) group
  = match dict_get acc group, keys_of_group pairs group with
    | Some keys, more => Some (keys ++ more)
    | None, [] => None
    | None, more => Some more
    end.
Proof.
  revert acc. induction pairs as [|[k g] pairs IH]; intros acc; csimpl.
  - destruct (dict_get acc group); [by rewrite app_nil_r | done].
  - rewrite IH, setdefault_append_get. unfold keys_of_group. csimpl.
    destruct (decide (g = group)) as [->|Hne]; csimpl.
    + destruct (dict_get acc group); csimpl; [by rewrite <- app_assoc | done].
    + done.
Qed.

Lemma dict_by_keys {V} (d : list (string * V)) (f : string → V) :
  NoDup (dict_keys d) →
  (∀ k, k ∈ dict_keys d → dict_get d k = Some (f k)) →
  d = (λ k, (k, f k)) <$> dict_keys d.
Proof.
  unfold dict_keys. induction d as [|[k v] d IH]; csimpl; [done|].
  rewrite NoDup_cons. intros [Hk Hnd] Hget. f_equal.
  - specialize (Hget k (list_elem_of_here _ _)). csimpl in Hget.
    rewrite decide_True in Hget by done. congruence.
  - apply IH; [done|]. intros k' Hk'.
    specialize (Hget k' (list_elem_of_further _ _ _ Hk')). csimpl in Hget.
    rewrite decide_False in Hget; [done | by intros ->].
Qed.

Lemma first_seen_elem groups g : g ∈ first_seen groups ↔ g ∈ groups.
Proof.
  induction groups as [|g0 groups IH]; simpl; [done|].
  rewrite !elem_of_cons, list_elem_of_In, List.filter_In, <- list_elem_of_In, IH.
  rewrite negb_true_iff, bool_decide_eq_false.
  destruct (decide (g = g0)); tauto.
Qed.

Lemma keys_of_group_declared pairs group :
  group ∈ pairs.*2 → keys_of_group pairs group ≠ [].
Proof.
  unfold keys_of_group. induction pairs as [|[k g] pairs IH]; csimpl.
  - by intros ?%elem_of_nil.
  - intros Hin. destruct (decide (g = group)); csimpl; [done|].
    apply IH. apply elem_of_cons in Hin as [?|?]; [congruence | done].
Qed.

Lemma grouped_NoDup pairs acc :
  NoDup (dict_keys acc) →
  NoDup (dict_keys
           (fold_left (λ acc kg, InertiaResponse.setdefault_append acc kg.2 kg.1)
              pairs acc)).
Proof.
  revert acc. induction pairs as [|[k g] pairs IH]; intros acc Hnd; [done|].
  simpl. by apply IH, setdefault_append_NoDup.
Qed.

Lemma filter_all {A} (l : list A) : List.filter (λ _, true) l = l.
Proof. induction l; simpl; congruence. Qed.

(** The loop groups as the specification says. *)
Lemma deferred_loop_manifest props :
  fold_left (λ acc kv,
               match kv.2 with
               | PDeferredProp _ group _ =>
                   InertiaResponse.setdefault_append acc group kv.1
               | _ => acc
               end) props []
  = manifest_as_specified props.
Proof.
  rewrite deferred_loop_pairs. unfold manifest_as_specified.
  set (pairs := deferred_pairs props).
  set (m := fold_left _ pairs []).
  assert (dict_keys m = first_seen pairs.*2) as Hkeys.
  { unfold m. rewrite grouped_keys. simpl. apply filter_all. }
  rewrite <- Hkeys. apply dict_by_keys.
  - apply grouped_NoDup, NoDup_nil_2.
  - intros g Hg. unfold m. rewrite grouped_get. simpl.
    rewrite Hkeys in Hg. apply first_seen_elem, keys_of_group_declared in Hg.
    by destruct (keys_of_group pairs g).
Qed.

Lemma build_deferred_props_manifest self :
  InertiaResponse._build_deferred_props self
  = if partial_render self then None
    else match manifest_as_specified (InertiaResponse.props self) with
         | [] => None
         | entry :: entries => Some (entry :: entries)
         end.
Proof.
  unfold InertiaResponse._build_deferred_props, partial_render.
  rewrite deferred_loop_manifest.
  by destruct (manifest_as_specified _), (InertiaRequest.is_a_partial_render _ _).
Qed.

Lemma build_deferred_props_not_empty self :
  InertiaResponse._build_deferred_props self ≠ Some [].
Proof.
  rewrite build_deferred_props_manifest.
  destruct (partial_render self); [done|].
  by destruct (manifest_as_specified _).
Qed.

(** ** The page data *)

Lemma build_page_data_run cfg self log b :
  encrypt_history_value cfg (InertiaResponse.inertia_request self) = PBool b →
  ∃ page,
    InertiaResponse._build_page_data cfg self log
    = (Return page,
       log ++ (InertiaResponse.filtered_props self ≫= (λ kv, invoked kv.2)))
    ∧ dict_get page "component" = Some (PStr (InertiaResponse.component self))
    ∧ dict_get page "props"
      = Some (PDict (prod_map id resolved <$> InertiaResponse.filtered_props self))
    ∧ dict_get page "deferredProps"
      = InertiaResponse.group_map <$> InertiaResponse._build_deferred_props self
    ∧ dict_get page "mergeProps"
      = match InertiaResponse._build_merge_props self with
        | [] => None
        | keys => Some (InertiaResponse.str_list keys)
        end.
Proof.
  intros Hb. pose proof (build_deferred_props_not_empty self) as Hne.
  unfold InertiaResponse._build_page_data.
  change (helpers.validate_type _ "clear_history" TBool)
    with (@ret pyval (PBool false)).
  unfold bind at 1. unfold ret at 1. unfold bind at 1. rewrite build_props_run.
  unfold bind at 1. unfold InertiaRequest.should_encrypt_history.
  fold (encrypt_history_value cfg (InertiaResponse.inertia_request self)).
  rewrite Hb.
  change (helpers.validate_type (PBool b) "encrypt_history" TBool)
    with (@ret pyval (PBool b)).
  unfold ret.
  destruct (InertiaResponse._build_deferred_props self) as [[|g gs]|];
    [done| |];
    destruct (InertiaResponse._build_merge_props self) as [|k ks];
    eexists; (split; [reflexivity|]); by repeat split.
Qed.

Lemma build_page_data_raises cfg self log :
  isinstance (encrypt_history_value cfg (InertiaResponse.inertia_request self)) TBool
    = false →
  ∃ e, InertiaResponse._build_page_data cfg self log
       = (Raise e,
          log ++ (InertiaResponse.filtered_props self ≫= (λ kv, invoked kv.2))).
Proof.
  intros Hb.
  unfold InertiaResponse._build_page_data.
  change (helpers.validate_type _ "clear_history" TBool)
    with (@ret pyval (PBool false)).
  unfold bind at 1. unfold ret at 1. unfold bind at 1. rewrite build_props_run.
  unfold bind at 1. unfold InertiaRequest.should_encrypt_history.
  fold (encrypt_history_value cfg (InertiaResponse.inertia_request self)).
  unfold helpers.validate_type. rewrite Hb. by eexists.
Qed.

Lemma dict_keys_resolved (d : list (string * pyval)) :
  dict_keys (prod_map id resolved <$> d) = dict_keys d.
Proof.
  unfold dict_keys. induction d as [|[k v] d IH]; csimpl; [done|].
  by rewrite IH.
Qed.

Lemma deferred_pairs_elem props key group :
  (key, group) ∈ deferred_pairs props
  ↔ ∃ prop merge, (key, PDeferredProp prop group merge) ∈ props.
Proof.
  unfold deferred_pairs. rewrite list_elem_of_omap. split.
  - intros ([k v] & Hin & Hsome). destruct v; try discriminate.
    simpl in Hsome. injection Hsome as -> ->. eauto.
  - intros (prop & merge & Hin). by exists (key, PDeferredProp prop group merge).
Qed.

Lemma keys_of_group_elem pairs group key :
  key ∈ keys_of_group pairs group ↔ (key, group) ∈ pairs.
Proof.
  unfold keys_of_group. rewrite list_elem_of_omap. split.
  - intros ([k g] & Hin & Hsome). simpl in Hsome.
    destruct (decide (g = group)) as [->|]; [|discriminate].
    by injection Hsome as ->.
  - intros Hin. exists (key, group). split; [done|]. simpl.
    by rewrite decide_True.
Qed.

Lemma manifest_as_specified_elem props group keys :
  (group, keys) ∈ manifest_as_specified props
  ↔ group ∈ (deferred_pairs props).*2
    ∧ keys = keys_of_group (deferred_pairs props) group.
Proof.
  unfold manifest_as_specified. rewrite list_elem_of_fmap. split.
  - intros (g & Heq & Hin). injection Heq as -> ->.
    split; [by apply first_seen_elem | done].
  - intros [Hin ->]. exists group. split; [done|]. by apply first_seen_elem.
Qed.

Lemma build_deferred_props_first_load self :
  InertiaResponse._build_deferred_props self
  = match manifest_as_specified (InertiaResponse.props self) with
    | [] => None
    | entry :: entries => Some (entry :: entries)
    end.
Proof. by rewrite build_deferred_props_manifest, partial_render_never. Qed.

(** C4.  The manifest is computed for every request, the matching partial
    requests included: [_build_deferred_props] never takes its early return,
    [is_a_partial_render] being false for every request.  The manifest maps
    each declared group, in first-seen order, to the keys of its deferred
    props in order, and the field is left out of the page when there is no
    deferred prop.  But a deferred prop is never delivered: for a request
    that names the component and asks for the key in
    [X-Inertia-Partial-Data], the key is still listed in [deferredProps] and
    still absent from [props]. *)
Theorem deferred_props_manifest (cfg : settings.InertiaSettings)
    (self : InertiaResponse.t) (log : list nat) (b : bool) :
  encrypt_history_value cfg (InertiaResponse.inertia_request self) = PBool b →
  NoDup (dict_keys (InertiaResponse.props self)) →
  ∃ page log',
    InertiaResponse._build_page_data cfg self log = (Return page, log')
    ∧ dict_get page "deferredProps"
      = match manifest_as_specified (InertiaResponse.props self) with
        | [] => None
        | groups => Some (InertiaResponse.group_map groups)
        end
    ∧ ∀ key prop group merge value,
        (key, PDeferredProp prop group merge) ∈ InertiaResponse.props self →
        Request.headers (InertiaResponse.inertia_request self)
          !! "X-Inertia-Partial-Data" = Some value →
        key ∈ split comma value →
        Request.headers (InertiaResponse.inertia_request self)
          !! "X-Inertia-Partial-Component" = Some (InertiaResponse.component self) →
        (∃ groups keys,
           dict_get page "deferredProps" = Some (InertiaResponse.group_map groups)
           ∧ (group, keys) ∈ groups ∧ key ∈ keys)
        ∧ ∃ entries,
            dict_get page "props" = Some (PDict entries)
            ∧ key ∉ dict_keys entries.
Proof.
  intros Hb Hnd.
  destruct (build_page_data_run cfg self log b Hb)
    as (page & Hrun & _ & Hprops & Hdeferred & _).
  exists page. eexists. split; [exact Hrun|].
  rewrite build_deferred_props_first_load in Hdeferred.
  split.
  { rewrite Hdeferred. by destruct (manifest_as_specified _). }
  intros key prop group merge value Hin _ _ _. split.
  - assert ((group, keys_of_group (deferred_pairs (InertiaResponse.props self)) group)
            ∈ manifest_as_specified (InertiaResponse.props self)) as Hgroup.
    { apply manifest_as_specified_elem. split; [|done].
      apply list_elem_of_fmap. exists (key, group). split; [done|].
      apply deferred_pairs_elem. eauto. }
    exists (manifest_as_specified (InertiaResponse.props self)),
      (keys_of_group (deferred_pairs (InertiaResponse.props self)) group).
    split_and!; [|done|].
    + rewrite Hdeferred. destruct (manifest_as_specified _); [|done].
      by apply elem_of_nil in Hgroup.
    + apply keys_of_group_elem, deferred_pairs_elem. eauto.
  - eexists. split; [exact Hprops|]. rewrite dict_keys_resolved.
    rewrite (filtered_props_key_first_load self key
               (PDeferredProp prop group merge)); [done|].
    by apply dict_merge_get_right.
Qed.

Lemma deferred_props_manifest_witness :
  encrypt_history_value settings.defaults
    (InertiaResponse.inertia_request partial_defer_group) = PBool false
  ∧ NoDup (dict_keys (InertiaResponse.props partial_defer_group))
  ∧ Request.headers (InertiaResponse.inertia_request partial_defer_group)
      !! "X-Inertia-Partial-Data" = Some "sport,team"
  ∧ Request.headers (InertiaResponse.inertia_request partial_defer_group)
      !! "X-Inertia-Partial-Component" = Some "TestComponent"
  ∧ ∃ page log' entries,
      InertiaResponse._build_page_data settings.defaults partial_defer_group []
      = (Return page, log')
      ∧ dict_get page "deferredProps"
        = Some (PDict [ ("group", PList [PStr "sport"; PStr "team"]);
                        ("default", PList [PStr "grit"]) ])
      ∧ dict_get page "props" = Some (PDict entries)
      ∧ "team" ∉ dict_keys entries.
Proof.
  assert (NoDup (dict_keys (InertiaResponse.props partial_defer_group))) as Hnd.
  { refine (bool_decide_unpack _ _). vm_compute. exact I. }
  split; [reflexivity|]. split; [exact Hnd|].
  split; [reflexivity|]. split; [reflexivity|].
  destruct (deferred_props_manifest settings.defaults partial_defer_group []
              false eq_refl Hnd) as (page & log' & Hrun & Hmanifest & Hkept).
  destruct (Hkept "team" (PFunc 2 (PStr "Bulls")) "group" false "sport,team")
    as (_ & entries & Hprops & Habsent);
    [do 2 apply list_elem_of_further; apply list_elem_of_here
    | reflexivity
    | apply list_elem_of_further, list_elem_of_here
    | reflexivity
    | ].
  exists page, log', entries.
  split; [exact Hrun|]. split; [exact Hmanifest|].
  split; [exact Hprops | exact Habsent].
Defined.

(** ** The merge-prop list *)

Lemma should_merge_variant v :
  prop_classes.isinstance_MergeableProp v && prop_classes.should_merge v = true
  ↔ (∃ prop group, v = PDeferredProp prop group true)
    ∨ (∃ prop, v = PMergeProp prop).
Proof.
  split.
  - destruct v as [| | | | | | | |prop group []|prop]; simpl; try discriminate;
      intros _; [left | right]; eauto.
  - intros [(? & ? & ->)|[? ->]]; done.
Qed.

Lemma build_merge_props_elem self key :
  key ∈ InertiaResponse._build_merge_props self
  ↔ ∃ v, (key, v) ∈ InertiaResponse.props self
         ∧ prop_classes.isinstance_MergeableProp v && prop_classes.should_merge v = true
         ∧ key ∉ InertiaRequest.reset_keys (InertiaResponse.inertia_request self).
Proof.
  unfold InertiaResponse._build_merge_props. rewrite list_elem_of_omap. split.
  - intros ([k v] & Hin & Hsome). simpl in Hsome.
    destruct (_ && _) eqn:Hc; [|discriminate].
    apply andb_true_iff in Hc as [Hm Hr].
    apply negb_true_iff, bool_decide_eq_false in Hr.
    injection Hsome as ->. by exists v.
  - intros (v & Hin & Hm & Hr). exists (key, v). split; [done|]. simpl.
    rewrite Hm. by rewrite (bool_decide_eq_false_2 _ Hr).
Qed.

(** C5.  The reset header is not seen.  [reset_keys] asks the dict with
    lower-case keys for [X-Inertia-Reset], finds nothing and returns the one
    key [""].  So, whatever the request says, the merge-prop list holds the
    keys of the handler's props whose value is a [DeferredProp] with its
    merge flag set or a [MergeProp], the key [""] excepted; a key named in
    the reset header stays in the list.  The page has no [mergeProps] field
    when the list is empty. *)
Theorem merge_props_listing (cfg : settings.InertiaSettings)
    (self : InertiaResponse.t) (log : list nat) (b : bool) :
  encrypt_history_value cfg (InertiaResponse.inertia_request self) = PBool b →
  (∀ key,
     key ∈ InertiaResponse._build_merge_props self
     ↔ (∃ v, (key, v) ∈ InertiaResponse.props self
             ∧ ((∃ prop group, v = PDeferredProp prop group true)
                ∨ (∃ prop, v = PMergeProp prop)))
       ∧ key ≠ "")
  ∧ (∀ value key v,
       Request.headers (InertiaResponse.inertia_request self)
         !! "X-Inertia-Reset" = Some value →
       key ∈ split comma value →
       key ≠ "" →
       (key, v) ∈ InertiaResponse.props self →
       (∃ prop group, v = PDeferredProp prop group true)
       ∨ (∃ prop, v = PMergeProp prop) →
       key ∈ InertiaResponse._build_merge_props self)
  ∧ ∃ page log',
      InertiaResponse._build_page_data cfg self log = (Return page, log')
      ∧ dict_get page "mergeProps"
        = match InertiaResponse._build_merge_props self with
          | [] => None
          | keys => Some (InertiaResponse.str_list keys)
          end.
Proof.
  intros Hb.
  assert (∀ key,
            key ∈ InertiaResponse._build_merge_props self
            ↔ (∃ v, (key, v) ∈ InertiaResponse.props self
                    ∧ ((∃ prop group, v = PDeferredProp prop group true)
                       ∨ (∃ prop, v = PMergeProp prop)))
              ∧ key ≠ "") as Hlisted.
  { intros key. rewrite build_merge_props_elem, reset_keys_never.
    setoid_rewrite list_elem_of_singleton. split.
    - intros (v & Hin & Hm & Hr). split; [|done].
      exists v. split; [done|]. by apply should_merge_variant.
    - intros [(v & Hin & Hm) Hr]. exists v. split_and!; [done| |done].
      by apply should_merge_variant. }
  split_and!.
  - exact Hlisted.
  - intros value key v _ _ Hkey Hin Hv. apply Hlisted. split; [|done]. eauto.
  - destruct (build_page_data_run cfg self log b Hb)
      as (page & Hrun & _ & _ & _ & Hmerge).
    exists page. eexists. split; [exact Hrun | exact Hmerge].
Qed.

Lemma merge_props_listing_witness :
  encrypt_history_value settings.defaults
    (InertiaResponse.inertia_request partial_merge_reset) = PBool false
  ∧ Request.headers (InertiaResponse.inertia_request partial_merge_reset)
      !! "X-Inertia-Reset" = Some "sport,team"
  ∧ "team" ∈ split comma "sport,team"
  ∧ "team" ∈ InertiaResponse._build_merge_props partial_merge_reset
  ∧ ∃ page log',
      InertiaResponse._build_page_data settings.defaults partial_merge_reset []
      = (Return page, log')
      ∧ dict_get page "mergeProps" = Some (PList [PStr "sport"; PStr "team"]).
Proof.
  assert ("team" ∈ split comma "sport,team") as Hreset
    by apply list_elem_of_further, list_elem_of_here.
  split; [reflexivity|]. split; [reflexivity|]. split; [exact Hreset|].
  destruct (merge_props_listing settings.defaults partial_merge_reset [] false eq_refl)
    as (_ & Hstays & page & log' & Hrun & Hmerge).
  split.
  - apply (Hstays "sport,team" "team"
             (PDeferredProp (PFunc 2 (PStr "Penguins")) "default" true)
             eq_refl Hreset).
    + discriminate.
    + do 2 apply list_elem_of_further. apply list_elem_of_here.
    + left. by do 2 eexists.
  - exists page, log'. split; [exact Hrun|]. rewrite Hmerge. reflexivity.
Defined.

(** ** Merge props and the inclusion filter *)

(** C10.  The merge-prop list is a function of the handler's props and of
    the [X-Inertia-Reset] header alone, and the inclusion filter plays no
    part in it: on a first load, a [DeferredProp] with its merge flag set
    whose key is not in the reset list is listed in [mergeProps] of the
    page while its key is absent from [props] of the same page. *)
Theorem merge_props_ignore_the_filter (cfg : settings.InertiaSettings)
    (self : InertiaResponse.t) (log : list nat) (b : bool)
    (key : string) (prop : pyval) (group : string) :
  NoDup (dict_keys (InertiaResponse.props self)) →
  encrypt_history_value cfg (InertiaResponse.inertia_request self) = PBool b →
  (key, PDeferredProp prop group true) ∈ InertiaResponse.props self →
  partial_render self = false →
  key ∉ InertiaRequest.reset_keys (InertiaResponse.inertia_request self) →
  (∀ self',
     InertiaResponse.props self' = InertiaResponse.props self →
     InertiaRequest.get_header (InertiaResponse.inertia_request self') "X-Inertia-Reset"
     = InertiaRequest.get_header (InertiaResponse.inertia_request self) "X-Inertia-Reset" →
     InertiaResponse._build_merge_props self' = InertiaResponse._build_merge_props self)
  ∧ ∃ page log' entries keys,
      InertiaResponse._build_page_data cfg self log = (Return page, log')
      ∧ dict_get page "props" = Some (PDict entries)
      ∧ (key ∉ dict_keys entries)
      ∧ dict_get page "mergeProps" = Some (InertiaResponse.str_list keys)
      ∧ key ∈ keys.
Proof.
  intros Hnd Hb Hin Hfirst Hreset. split.
  - intros self' Hprops Hhdr.
    unfold InertiaResponse._build_merge_props, InertiaRequest.reset_keys.
    by rewrite Hprops, Hhdr.
  - destruct (build_page_data_run cfg self log b Hb)
      as (page & Hrun & _ & Hprops & _ & Hmerge).
    assert (key ∈ InertiaResponse._build_merge_props self) as Hlisted.
    { apply build_merge_props_elem. eexists. split_and!; [exact Hin|done..]. }
    exists page. do 2 eexists. exists (InertiaResponse._build_merge_props self).
    split_and!; [exact Hrun | exact Hprops | | | done].
    + rewrite dict_keys_resolved.
      assert (dict_get (InertiaResponse.merged_props self) key
              = Some (PDeferredProp prop group true)) as Hget
        by by apply dict_merge_get_right.
      rewrite (filtered_props_key self key _ Hget). unfold keeps.
      by rewrite Hfirst.
    + rewrite Hmerge. destruct (InertiaResponse._build_merge_props self); [|done].
      by apply elem_of_nil in Hlisted.
Qed.

Lemma merge_props_ignore_the_filter_witness :
  NoDup (dict_keys (InertiaResponse.props first_load_merge))
  ∧ ("team" ∉ InertiaRequest.reset_keys (InertiaResponse.inertia_request first_load_merge))
  ∧ ∃ page log' entries keys,
      InertiaResponse._build_page_data settings.defaults first_load_merge []
      = (Return page, log')
      ∧ dict_get page "props" = Some (PDict entries)
      ∧ ("team" ∉ dict_keys entries)
      ∧ dict_get page "mergeProps" = Some (InertiaResponse.str_list keys)
      ∧ "team" ∈ keys.
Proof.
  assert (NoDup (dict_keys (InertiaResponse.props first_load_merge))) as Hnd.
  { refine (bool_decide_unpack _ _). vm_compute. exact I. }
  assert ("team" ∉ InertiaRequest.reset_keys
                     (InertiaResponse.inertia_request first_load_merge)) as Hreset.
  { refine (bool_decide_unpack _ _). vm_compute. exact I. }
  split; [exact Hnd|]. split; [exact Hreset|].
  refine (proj2 (merge_props_ignore_the_filter settings.defaults first_load_merge []
                   false "team" (PFunc 2 (PStr "Penguins")) "default"
                   Hnd eq_refl _ eq_refl Hreset)).
  do 2 apply list_elem_of_further. apply list_elem_of_here.
Defined.

(** ** The middleware *)

Section middleware_facts.
Context {AppState : Type}.
Variable cfg : settings.InertiaSettings.
Implicit Types (request : Request.t) (response : Response.t).

Lemma is_redirect_response_status response :
  InertiaMiddleware._is_redirect_response response = true
  ↔ Response.status_code response = 301 ∨ Response.status_code response = 302.
Proof.
  unfold InertiaMiddleware._is_redirect_response.
  rewrite bool_decide_eq_true, !elem_of_cons, elem_of_nil.
  unfold HTTPStatus_MOVED_PERMANENTLY, HTTPStatus_FOUND. tauto.
Qed.

Lemma is_stale_version request :
  InertiaMiddleware._is_stale cfg request = true
  ↔ default "" (Request.headers request !! "X-Inertia-Version")
    ≠ settings.INERTIA_VERSION cfg.
Proof.
  unfold InertiaMiddleware._is_stale.
  by rewrite negb_true_iff, bool_decide_eq_false.
Qed.

Lemma is_inertia_request_header request :
  InertiaMiddleware._is_inertia_request request = true
  ↔ is_Some (Request.headers request !! "X-Inertia").
Proof. apply bool_decide_eq_true. Qed.

Lemma short_circuit_test request :
  InertiaMiddleware._is_inertia_request request
  && bool_decide (Request.method request = "GET")
  && InertiaMiddleware._is_stale cfg request = true
  ↔ short_circuits cfg request.
Proof.
  unfold short_circuits.
  rewrite !andb_true_iff, is_inertia_request_header, bool_decide_eq_true,
    is_stale_version. tauto.
Qed.


Lemma dispatch_proceeds request
    (call_next : Request.t → AppState → Response.t * AppState) st :
  ¬ short_circuits cfg request →
  InertiaMiddleware.dispatch cfg request call_next st
  = (InertiaMiddleware.post_pass request (call_next request st).1,
     (call_next request st).2).
Proof.
  intros Hs. unfold InertiaMiddleware.dispatch.
  destruct (_ && _ && _) eqn:Ht.
  - by apply short_circuit_test in Ht.
  - by destruct (call_next request st).
Qed.

(** C6.  When the application has answered an Inertia request with a 301
    or 302: for the methods PUT, PATCH and DELETE the middleware returns the
    same response with status 303, its headers (so [Location]) untouched;
    for any other method it returns status 409, sets [X-Inertia-Location]
    to the value of [Location] (to ["/"] when there was none), removes
    [Location] and leaves every other header and the body as they were.  A
    response to a request without [X-Inertia], and a response with another
    status, are returned as they are. *)
Theorem redirect_post_pass (request : Request.t)
    (call_next : Request.t → AppState → Response.t * AppState)
    (st st' : AppState) (response : Response.t) :
  ¬ short_circuits cfg request →
  call_next request st = (response, st') →
  ∃ out,
    InertiaMiddleware.dispatch cfg request call_next st = (out, st')
    ∧ (is_Some (Request.headers request !! "X-Inertia") →
       Response.status_code response = 301 ∨ Response.status_code response = 302 →
       (Request.method request ∈ ["PUT"; "PATCH"; "DELETE"] →
        Response.status_code out = 303
        ∧ Response.headers out = Response.headers response
        ∧ Response.body out = Response.body response)
       ∧ (Request.method request ∉ ["PUT"; "PATCH"; "DELETE"] →
          Response.status_code out = 409
          ∧ Response.headers out !! "X-Inertia-Location"
            = Some (default "/" (Response.headers response !! "Location"))
          ∧ Response.headers out !! "Location" = None
          ∧ (∀ name, name ≠ "X-Inertia-Location" → name ≠ "Location" →
               Response.headers out !! name = Response.headers response !! name)
          ∧ Response.body out = Response.body response))
    ∧ (Request.headers request !! "X-Inertia" = None → out = response)
    ∧ (Response.status_code response ≠ 301 →
       Response.status_code response ≠ 302 → out = response).
Proof.
  intros Hs Hnext. eexists. split.
  { rewrite (dispatch_proceeds _ _ _ Hs), Hnext. reflexivity. }
  simpl. unfold InertiaMiddleware.post_pass. split_and!.
  - intros Hx Hstatus.
    rewrite (proj2 (is_inertia_request_header request) Hx).
    pose proof (proj2 (is_redirect_response_status response) Hstatus) as Hr.
    unfold InertiaMiddleware._is_non_get_redirect. rewrite Hr. simpl. split.
    + intros Hm. by rewrite (bool_decide_eq_true_2 _ Hm).
    + intros Hm. rewrite (bool_decide_eq_false_2 _ Hm).
      destruct (bool_decide _) eqn:Hloc; simpl; split_and!; try done.
      * by rewrite lookup_delete_ne, lookup_insert_eq.
      * by rewrite lookup_delete_eq.
      * intros name H1 H2. by rewrite lookup_delete_ne, lookup_insert_ne.
      * apply lookup_insert_eq.
      * rewrite lookup_insert_ne by done.
        apply bool_decide_eq_false in Hloc. rewrite lookup_insert_ne in Hloc by done.
        by apply eq_None_not_Some.
      * intros name H1 H2. by rewrite lookup_insert_ne.
  - intros Hx. destruct (InertiaMiddleware._is_inertia_request request) eqn:Hi;
      [|done].
    apply is_inertia_request_header in Hi.
    rewrite (Hx : Request.headers request !! "X-Inertia" = None) in Hi.
    by destruct Hi.
  - intros H1 H2.
    assert (InertiaMiddleware._is_redirect_response response = false) as Hr.
    { apply not_true_is_false. rewrite is_redirect_response_status. tauto. }
    unfold InertiaMiddleware._is_non_get_redirect. rewrite Hr. simpl.
    by destruct (InertiaMiddleware._is_inertia_request request).
Qed.


End middleware_facts.

Lemma redirect_post_pass_witness :
  (¬ short_circuits settings.defaults (current_inertia_request "PUT"))
  ∧ (∃ out,
       InertiaMiddleware.dispatch settings.defaults (current_inertia_request "PUT")
         redirecting_app 0%nat = (out, 1%nat)
       ∧ Response.status_code out = 303
       ∧ Response.headers out !! "Location" = Some "/about")
  ∧ (∃ out,
       InertiaMiddleware.dispatch settings.defaults (current_inertia_request "GET")
         redirecting_app 0%nat = (out, 1%nat)
       ∧ Response.status_code out = 409
       ∧ Response.headers out !! "X-Inertia-Location" = Some "/about"
       ∧ Response.headers out !! "Location" = None).
Proof.
  assert (¬ short_circuits settings.defaults (current_inertia_request "PUT")) as Hput.
  { intros (_ & Hm & _). discriminate Hm. }
  assert (¬ short_circuits settings.defaults (current_inertia_request "GET")) as Hget.
  { intros (_ & _ & Hv). by apply Hv. }
  split; [exact Hput|]. split.
  - destruct (redirect_post_pass settings.defaults (current_inertia_request "PUT")
                redirecting_app 0%nat 1%nat _ Hput eq_refl)
      as (out & Hrun & Hredirect & _).
    exists out. split; [exact Hrun|].
    destruct (Hredirect (mk_is_Some _ _ eq_refl) (or_intror eq_refl))
      as [Hverb _].
    destruct Hverb as (Hstatus & Hheaders & _); [apply list_elem_of_here|].
    split; [exact Hstatus|]. rewrite Hheaders. reflexivity.
  - destruct (redirect_post_pass settings.defaults (current_inertia_request "GET")
                redirecting_app 0%nat 1%nat _ Hget eq_refl)
      as (out & Hrun & Hredirect & _).
    exists out. split; [exact Hrun|].
    destruct (Hredirect (mk_is_Some _ _ eq_refl) (or_intror eq_refl))
      as [_ Hother].
    destruct Hother as (Hstatus & Hloc & Hgone & _).
    + intros Hin. repeat (apply elem_of_cons in Hin as [Hin|Hin]; [discriminate Hin|]).
      by apply elem_of_nil in Hin.
    + split; [exact Hstatus|]. split; [exact Hloc | exact Hgone].
Defined.


(** ** The response to an Inertia request *)

Lemma call_first_load
    (ssr_post : string → string → InertiaResponse.ssr_reply)
    (get_template : string → outcome InertiaResponse.template)
    (cfg : settings.InertiaSettings) (self : InertiaResponse.t) (log : list nat) :
  InertiaResponse.__call__ ssr_post get_template cfg self log
  = match InertiaResponse._build_page_data cfg self log with
    | (Return page, log') =>
        match json_encode (PDict page) with
        | Return data =>
            match InertiaResponse._build_first_load ssr_post get_template cfg self data with
            | Return content =>
                (Return (HTMLResponse content (InertiaResponse.status_code self)
                           (InertiaResponse.headers self)), log')
            | Raise e => (Raise e, log')
            end
        | Raise e => (Raise e, log')
        end
    | (Raise e, log') => (Raise e, log')
    end.
Proof.
  unfold InertiaResponse.__call__. unfold bind at 1.
  destruct (InertiaResponse._build_page_data cfg self log) as [[page|e] log'];
    [|done].
  unfold bind at 1. unfold lift at 1.
  destruct (json_encode (PDict page)) as [data|e]; [|done].
  rewrite is_inertia_never. unfold bind, lift, ret.
  by destruct (InertiaResponse._build_first_load _ _ cfg self data).
Qed.

Lemma call_returns
    (ssr_post : string → string → InertiaResponse.ssr_reply)
    (get_template : string → outcome InertiaResponse.template)
    (cfg : settings.InertiaSettings) (self : InertiaResponse.t)
    (log log' : list nat) (response : Response.t) :
  InertiaResponse.__call__ ssr_post get_template cfg self log
    = (Return response, log') →
  ∃ page data content,
    InertiaResponse._build_page_data cfg self log = (Return page, log')
    ∧ json_encode (PDict page) = Return data
    ∧ InertiaResponse._build_first_load ssr_post get_template cfg self data
      = Return content
    ∧ response = HTMLResponse content (InertiaResponse.status_code self)
                   (InertiaResponse.headers self).
Proof.
  rewrite call_first_load.
  destruct (InertiaResponse._build_page_data cfg self log) as [[page|e] log1];
    [|discriminate].
  destruct (json_encode (PDict page)) as [data|e] eqn:Hdata; [|discriminate].
  destruct (InertiaResponse._build_first_load _ _ cfg self data) as [content|e]
    eqn:Hload; [|discriminate].
  intros [= <- <-]. by exists page, data, content.
Qed.

(** C8.  A request with the [X-Inertia] header is answered as a first
    load.  [is_inertia] asks the dict with lower-case keys for [X-Inertia]
    and is false for every request, so [__call__] never builds the JSON
    response: whenever it returns, the response is the [HTMLResponse] of the
    rendered template, with the status passed in and with the headers given
    to the response object and no others, so without [Vary], [X-Inertia] and
    [Content-Type] unless the handler supplied them. *)
Theorem inertia_request_answered_as_first_load
    (ssr_post : string → string → InertiaResponse.ssr_reply)
    (get_template : string → outcome InertiaResponse.template)
    (cfg : settings.InertiaSettings) (self : InertiaResponse.t)
    (log log' : list nat) (response : Response.t) :
  is_Some (Request.headers (InertiaResponse.inertia_request self) !! "X-Inertia") →
  InertiaResponse.__call__ ssr_post get_template cfg self log
    = (Return response, log') →
  InertiaRequest.is_inertia (InertiaResponse.inertia_request self) = false
  ∧ (∃ page data content,
       InertiaResponse._build_page_data cfg self log = (Return page, log')
       ∧ json_encode (PDict page) = Return data
       ∧ InertiaResponse._build_first_load ssr_post get_template cfg self data
         = Return content
       ∧ Response.body response = json.encode_utf8 content)
  ∧ Response.status_code response = InertiaResponse.status_code self
  ∧ Response.headers response = InertiaResponse.headers self
  ∧ (∀ name,
       InertiaResponse.headers self !! name = None →
       Response.headers response !! name = None).
Proof.
  intros _ Hcall.
  destruct (call_returns _ _ _ _ _ _ _ Hcall)
    as (page & data & content & Hpage & Hdata & Hload & ->).
  split_and!; [apply is_inertia_never | | done | done | done].
  by exists page, data, content.
Qed.

Lemma inertia_request_answered_as_first_load_witness :
  is_Some (Request.headers (InertiaResponse.inertia_request inertia_visit)
             !! "X-Inertia")
  ∧ ∃ response,
      InertiaResponse.__call__ no_ssr name_of_template settings.defaults
        inertia_visit [] = (Return response, [])
      ∧ Response.body response = "inertia.html"
      ∧ Response.status_code response = 200
      ∧ Response.headers response !! "Vary" = None
      ∧ Response.headers response !! "X-Inertia" = None
      ∧ Response.headers response !! "Content-Type" = None.
Proof.
  assert (is_Some (Request.headers (InertiaResponse.inertia_request inertia_visit)
                     !! "X-Inertia")) as Hx.
  { exact (mk_is_Some _ _ eq_refl). }
  split; [exact Hx|].
  assert (∃ response,
            InertiaResponse.__call__ no_ssr name_of_template settings.defaults
              inertia_visit [] = (Return response, [])) as [response Hcall].
  { eexists. vm_compute. reflexivity. }
  destruct (inertia_request_answered_as_first_load no_ssr name_of_template
              settings.defaults inertia_visit [] [] response Hx Hcall)
    as (_ & (page & data & content & _ & _ & Hload & Hbody) & Hstatus & _ & Habsent).
  exists response. split; [exact Hcall|].
  split.
  { rewrite Hbody. vm_compute in Hload. injection Hload as <-. reflexivity. }
  split; [exact Hstatus|].
  split; [|split]; apply Habsent; reflexivity.
Defined.

(** ** The first load and the SSR service *)





(** * Further properties *)

(** ** More on dictionaries *)

Section dict_more.
Context {V : Type}.
Implicit Types (d : list (string * V)) (k : string) (v : V).

Lemma dict_set_absent d k v : k ∉ dict_keys d → dict_set d k v = d ++ [(k, v)].
Proof.
  unfold dict_keys. induction d as [|[k' v'] d IH]; csimpl; [done|].
  rewrite not_elem_of_cons. intros [Hne Hnin].
  rewrite decide_False by congruence. by rewrite IH.
Qed.

Lemma dict_set_present d k v : k ∈ dict_keys (dict_set d k v).
Proof.
  rewrite dict_keys_set. case_decide; [done|].
  apply elem_of_app. right. apply list_elem_of_here.
Qed.

Lemma dict_set_keeps_keys d k k' v : k ∈ dict_keys d → k ∈ dict_keys (dict_set d k' v).
Proof.
  intros Hin. rewrite dict_keys_set. case_decide; [done|].
  apply elem_of_app. by left.
Qed.

Lemma dict_set_set_eq d k v v' : dict_set (dict_set d k v) k v' = dict_set d k v'.
Proof.
  induction d as [|[k0 v0] d IH]; csimpl.
  - by rewrite decide_True.
  - destruct (decide (k0 = k)) as [->|Hne]; csimpl.
    + by rewrite decide_True.
    + rewrite decide_False by done. by rewrite IH.
Qed.

(** Two writes commute when the key of one is already bound. *)
Lemma dict_set_commute d k k' v v' :
  k ≠ k' → k ∈ dict_keys d →
  dict_set (dict_set d k' v') k v = dict_set (dict_set d k v) k' v'.
Proof.
  unfold dict_keys. intros Hne.
  induction d as [|[k0 v0] d IH]; csimpl; [by intros ?%elem_of_nil|].
  intros Hin. destruct (decide (k0 = k')) as [->|Hne']; csimpl.
  - rewrite !decide_False by done. csimpl. by rewrite decide_True.
  - destruct (decide (k0 = k)) as [->|Hne'']; csimpl.
    + by rewrite decide_False.
    + rewrite decide_False by done. f_equal. apply IH.
      apply elem_of_cons in Hin as [?|?]; [congruence | done].
Qed.

Lemma dict_update_app d o1 o2 :
  dict_update d (o1 ++ o2) = dict_update (dict_update d o1) o2.
Proof. unfold dict_update. apply fold_left_app. Qed.

Lemma dict_update_keeps_keys d o k : k ∈ dict_keys d → k ∈ dict_keys (dict_update d o).
Proof.
  unfold dict_update. revert d. induction o as [|[k0 v0] o IH]; intros d Hin; [done|].
  simpl. by apply IH, dict_set_keeps_keys.
Qed.

Lemma dict_update_unique d o :
  NoDup (dict_keys (d ++ o)) → dict_update d o = d ++ o.
Proof.
  unfold dict_update. revert d.
  induction o as [|[k v] o IH]; intros d Hnd; csimpl; [by rewrite app_nil_r|].
  assert (k ∉ dict_keys d) as Hk.
  { unfold dict_keys in *. rewrite fmap_app in Hnd. csimpl in Hnd.
    apply NoDup_app in Hnd as (_ & Hdisj & _).
    intros Hin. apply (Hdisj k Hin). apply list_elem_of_here. }
  rewrite (dict_set_absent _ _ _ Hk).
  replace (d ++ (k, v) :: o) with ((d ++ [(k, v)]) ++ o) in *
    by by rewrite <- app_assoc.
  by apply IH.
Qed.

(** A dict rebuilt from its own entries is itself. *)
Lemma dict_update_nil_unique d : NoDup (dict_keys d) → dict_update [] d = d.
Proof. intros Hnd. by apply (dict_update_unique [] d). Qed.

Lemma dict_merge_update (a b : list (string * V)) :
  NoDup (dict_keys a) → dict_merge a b = dict_update a b.
Proof. intros Hnd. unfold dict_merge. by rewrite dict_update_nil_unique. Qed.

(** In [{**a, **b}] the entries of [b] win. *)
Lemma dict_merge_get (a b : list (string * V)) k :
  NoDup (dict_keys a) → NoDup (dict_keys b) →
  dict_get (dict_merge a b) k
  = match dict_get b k with Some v => Some v | None => dict_get a k end.
Proof.
  intros Ha Hb. unfold dict_merge. rewrite !dict_update_get by done.
  by destruct (dict_get a k).
Qed.

Lemma dict_update_set_bound d o k v :
  (k ∉ dict_keys o) → k ∈ dict_keys d →
  dict_set (dict_update d o) k v = dict_update (dict_set d k v) o.
Proof.
  unfold dict_update. revert d.
  induction o as [|[k1 v1] o IH]; intros d Hk Hin; [done|].
  unfold dict_keys in Hk. csimpl in Hk. apply not_elem_of_cons in Hk as [Hne Hk].
  simpl. rewrite IH; [|done|by apply dict_set_keeps_keys].
  by rewrite dict_set_commute.
Qed.

Lemma dict_update_set d o k v :
  NoDup (dict_keys o) →
  dict_update d (dict_set o k v) = dict_set (dict_update d o) k v.
Proof.
  revert d. induction o as [|[k0 v0] o IH]; intros d Hnd; [done|].
  unfold dict_keys in Hnd. csimpl in Hnd. apply NoDup_cons in Hnd as [Hk0 Hnd].
  csimpl. destruct (decide (k0 = k)) as [->|Hne].
  - unfold dict_update at 1 2. simpl.
    fold (dict_update (dict_set d k v) o). fold (dict_update (dict_set d k v0) o).
    rewrite (dict_update_set_bound (dict_set d k v0) o k v Hk0 (dict_set_present _ _ _)).
    by rewrite dict_set_set_eq.
  - unfold dict_update at 1 2. simpl.
    fold (dict_update (dict_set d k0 v0) (dict_set o k v)).
    fold (dict_update (dict_set d k0 v0) o).
    by apply IH.
Qed.

Lemma dict_update_assoc d a b :
  NoDup (dict_keys a) →
  dict_update (dict_update d a) b = dict_update d (dict_update a b).
Proof.
  intros Ha. induction b as [|[k v] b IH] using rev_ind; [done|].
  rewrite !dict_update_app, IH. unfold dict_update at 1 4. simpl.
  symmetry. apply dict_update_set. by apply dict_update_NoDup.
Qed.

End dict_more.

(** ** Shared state *)

Lemma share_inertia request kwargs :
  InertiaRequest.inertia (share.share request kwargs)
  = dict_merge (InertiaRequest.inertia request) kwargs.
Proof. done. Qed.

(** X1.  [share] keeps one value per key and the last write wins: after
    [share(request, **kwargs)] a key of [kwargs] is shared with the value
    given there, every other key is shared as it was before, and the shared
    state is created, empty, when the request had none. *)
Theorem share_last_write_wins (request : Request.t)
    (kwargs : list (string * pyval)) (key : string) :
  NoDup (dict_keys (InertiaRequest.inertia request)) →
  NoDup (dict_keys kwargs) →
  dict_get (InertiaRequest.inertia (share.share request kwargs)) key
  = match dict_get kwargs key with
    | Some v => Some v
    | None => dict_get (InertiaRequest.inertia request) key
    end
  ∧ NoDup (dict_keys (InertiaRequest.inertia (share.share request kwargs)))
  ∧ (Request.state_inertia request = None →
     InertiaRequest.inertia (share.share request kwargs) = kwargs).
Proof.
  intros Hshared Hkw. rewrite share_inertia. split_and!.
  - by apply dict_merge_get.
  - apply dict_merge_NoDup.
  - intros Hnone. unfold InertiaRequest.inertia. rewrite Hnone.
    unfold dict_merge. simpl. by apply dict_update_nil_unique.
Qed.

Lemma share_last_write_wins_witness :
  NoDup (dict_keys (InertiaRequest.inertia plain_request))
  ∧ NoDup (dict_keys (main_shared_data plain_request))
  ∧ dict_get
      (InertiaRequest.inertia
         (share.share (share.share plain_request (main_shared_data plain_request))
            [("app_name", PStr "Renamed")])) "app_name"
    = Some (PStr "Renamed").
Proof.
  assert (NoDup (dict_keys (InertiaRequest.inertia plain_request))) as H0.
  { refine (bool_decide_unpack _ _). vm_compute. exact I. }
  assert (NoDup (dict_keys (main_shared_data plain_request))) as H1.
  { refine (bool_decide_unpack _ _). vm_compute. exact I. }
  assert (NoDup (dict_keys [("app_name", PStr "Renamed")])) as H2.
  { refine (bool_decide_unpack _ _). vm_compute. exact I. }
  split; [exact H0|]. split; [exact H1|].
  destruct (share_last_write_wins plain_request (main_shared_data plain_request)
              "app_name" H0 H1) as (_ & Hnd & _).
  exact (proj1 (share_last_write_wins
                  (share.share plain_request (main_shared_data plain_request))
                  [("app_name", PStr "Renamed")] "app_name" Hnd H2)).
Defined.

(** X2.  Two calls of [share] in a row leave the request as one call with
    the two sets of keyword arguments merged, the later set winning. *)
Theorem share_twice (request : Request.t) (first second : list (string * pyval)) :
  NoDup (dict_keys first) →
  share.share (share.share request first) second
  = share.share request (dict_merge first second).
Proof.
  intros Hfirst. unfold share.share, share.set. simpl. do 2 f_equal.
  set (shared := match Request.state_inertia request with
                 | Some props => props
                 | None => []
                 end).
  unfold dict_merge at 1 2 3.
  set (base := dict_update [] shared).
  assert (NoDup (dict_keys base)) as Hbase
    by apply dict_update_NoDup, NoDup_nil_2.
  rewrite (dict_update_nil_unique (dict_update base first))
    by by apply dict_update_NoDup.
  rewrite (dict_merge_update first second Hfirst).
  by apply dict_update_assoc.
Qed.

Lemma share_twice_witness :
  NoDup (dict_keys (main_shared_data plain_request))
  ∧ share.share (share.share plain_request (main_shared_data plain_request))
      [("app_name", PStr "Renamed")]
    = share.share plain_request
        [ ("user", PDict [("name", PStr "Example User")]);
          ("app_name", PStr "Renamed") ].
Proof.
  assert (NoDup (dict_keys (main_shared_data plain_request))) as H1.
  { refine (bool_decide_unpack _ _). vm_compute. exact I. }
  split; [exact H1|].
  exact (share_twice plain_request (main_shared_data plain_request)
           [("app_name", PStr "Renamed")] H1).
Defined.

(** X3.  [set_inertia_state] replaces the wrapper's own [_inertia_state]
    but merges into the state of the request: afterwards the [inertia]
    property gives the data just set on top of what was shared before,
    whose other keys stay visible; on a request without shared state it
    gives exactly the data. *)
Theorem set_inertia_state_merges (self : InertiaRequestState.t)
    (data : list (string * pyval)) :
  NoDup (dict_keys (InertiaRequest.inertia (InertiaRequestState.request self))) →
  NoDup (dict_keys data) →
  InertiaRequestState._inertia_state
    (InertiaRequestState.set_inertia_state self data) = data
  ∧ InertiaRequestState.inertia (InertiaRequestState.set_inertia_state self data)
    = dict_update (InertiaRequest.inertia (InertiaRequestState.request self)) data
  ∧ (∀ key,
       dict_get
         (InertiaRequestState.inertia
            (InertiaRequestState.set_inertia_state self data)) key
       = match dict_get data key with
         | Some v => Some v
         | None =>
             dict_get (InertiaRequest.inertia (InertiaRequestState.request self)) key
         end)
  ∧ (Request.state_inertia (InertiaRequestState.request self) = None →
     InertiaRequestState.inertia (InertiaRequestState.set_inertia_state self data)
     = data).
Proof.
  intros Hshared Hdata.
  assert (InertiaRequestState.inertia
            (InertiaRequestState.set_inertia_state self data)
          = dict_merge (InertiaRequest.inertia (InertiaRequestState.request self))
              data) as Heq by done.
  rewrite Heq. split_and!.
  - done.
  - by apply dict_merge_update.
  - intros key. by apply dict_merge_get.
  - intros Hnone. unfold InertiaRequest.inertia. rewrite Hnone.
    unfold dict_merge. simpl. by apply dict_update_nil_unique.
Qed.

Lemma set_inertia_state_merges_witness :
  NoDup (dict_keys (main_shared_data plain_request))
  ∧ InertiaRequestState.inertia
      (InertiaRequestState.set_inertia_state
         (InertiaRequestState.set_inertia_state
            (InertiaRequestState.__init__ plain_request)
            (main_shared_data plain_request))
         [("locale", PStr "en")])
    = [ ("user", PDict [("name", PStr "Example User")]);
        ("app_name", PStr "FastAPI Inertia Example");
        ("locale", PStr "en") ].
Proof.
  assert (NoDup (dict_keys (main_shared_data plain_request))) as H1.
  { refine (bool_decide_unpack _ _). vm_compute. exact I. }
  assert (NoDup (dict_keys [("locale", PStr "en")])) as H2.
  { refine (bool_decide_unpack _ _). vm_compute. exact I. }
  split; [exact H1|].
  exact (proj1 (proj2 (set_inertia_state_merges
                         (InertiaRequestState.set_inertia_state
                            (InertiaRequestState.__init__ plain_request)
                            (main_shared_data plain_request))
                         [("locale", PStr "en")] H1 H2))).
Defined.

(** X4.  The middleware installed for a [shared_data_callback] hands the
    application the request with the callback's data shared on it, so a
    page built in the handler starts from those entries: a key of the
    handler's props has the handler's value, any other key has the
    callback's value, and failing that the value shared before. *)
Theorem shared_data_reach_the_props {AppState : Type}
    (shared_data_callback : Request.t → list (string * pyval))
    (request : Request.t)
    (call_next : Request.t → AppState → Response.t * AppState) (st : AppState)
    (component : string) (props template_data : list (string * pyval))
    (status_code : Z) (headers : gmap string string) (key : string) :
  NoDup (dict_keys (InertiaRequest.inertia request)) →
  NoDup (dict_keys (shared_data_callback request)) →
  NoDup (dict_keys props) →
  shared_data_middleware shared_data_callback request call_next st
  = call_next (share.share request (shared_data_callback request)) st
  ∧ dict_get
      (InertiaResponse.merged_props
         (InertiaResponse.mk
            (share.share request (shared_data_callback request))
            component props template_data status_code headers)) key
    = match dict_get props key with
      | Some v => Some v
      | None =>
          match dict_get (shared_data_callback request) key with
          | Some v => Some v
          | None => dict_get (InertiaRequest.inertia request) key
          end
      end.
Proof.
  intros Hshared Hcb Hprops. split; [done|].
  unfold InertiaResponse.merged_props. simpl.
  rewrite share_inertia.
  rewrite dict_merge_get; [|apply dict_merge_NoDup|done].
  by rewrite dict_merge_get.
Qed.

Lemma shared_data_reach_the_props_witness :
  NoDup (dict_keys (main_shared_data plain_request))
  ∧ NoDup (dict_keys main_home_props)
  ∧ dict_get
      (InertiaResponse.merged_props
         (InertiaResponse.mk
            (share.share plain_request (main_shared_data plain_request))
            "Home" main_home_props [] HTTPStatus_OK ∅)) "app_name"
    = Some (PStr "FastAPI Inertia Example").
Proof.
  assert (NoDup (dict_keys (InertiaRequest.inertia plain_request))) as H0.
  { refine (bool_decide_unpack _ _). vm_compute. exact I. }
  assert (NoDup (dict_keys (main_shared_data plain_request))) as H1.
  { refine (bool_decide_unpack _ _). vm_compute. exact I. }
  assert (NoDup (dict_keys main_home_props)) as H2.
  { refine (bool_decide_unpack _ _). vm_compute. exact I. }
  split; [exact H1|]. split; [exact H2|].
  exact (proj2 (shared_data_reach_the_props (AppState := nat) main_shared_data
                  plain_request redirecting_app 0%nat "Home" main_home_props []
                  HTTPStatus_OK ∅ "app_name" H0 H1 H2)).
Defined.

(** ** The fixed fields of the page *)

Lemma build_page_data_fields cfg self log b :
  encrypt_history_value cfg (InertiaResponse.inertia_request self) = PBool b →
  ∃ page,
    InertiaResponse._build_page_data cfg self log
    = (Return page,
       log ++ (InertiaResponse.filtered_props self ≫= (λ kv, invoked kv.2)))
    ∧ dict_get page "url"
      = Some (PStr (Request.url (InertiaResponse.inertia_request self)))
    ∧ dict_get page "version" = Some (PStr (settings.INERTIA_VERSION cfg))
    ∧ dict_get page "encryptHistory" = Some (PBool b)
    ∧ dict_get page "clearHistory" = Some (PBool false).
Proof.
  intros Hb.
  unfold InertiaResponse._build_page_data.
  change (helpers.validate_type _ "clear_history" TBool)
    with (@ret pyval (PBool false)).
  unfold bind at 1. unfold ret at 1. unfold bind at 1. rewrite build_props_run.
  unfold bind at 1. unfold InertiaRequest.should_encrypt_history.
  fold (encrypt_history_value cfg (InertiaResponse.inertia_request self)).
  rewrite Hb.
  change (helpers.validate_type (PBool b) "encrypt_history" TBool)
    with (@ret pyval (PBool b)).
  unfold ret.
  destruct (InertiaResponse._build_deferred_props self) as [[|g gs]|];
    destruct (InertiaResponse._build_merge_props self) as [|k ks];
    eexists; (split; [reflexivity|]); by repeat split.
Qed.

Lemma validate_type_raises value name expected_type log :
  isinstance value expected_type = false →
  helpers.validate_type value name expected_type log
  = (Raise (TypeError ("Expected " +:+ type_name expected_type +:+ " for " +:+ name
                       +:+ ", got " +:+ type_name (type_of value))), log).
Proof. intros Hv. unfold helpers.validate_type. by rewrite Hv. Qed.

(** X5.  What [encrypt_history(request, value)] writes, the page builder
    reads back: for a boolean [value] the page built for that request has
    [encryptHistory] equal to it, whatever the configured default is. *)
Theorem encrypt_history_read_back (cfg : settings.InertiaSettings)
    (self : InertiaResponse.t) (value : bool) (log : list nat) :
  ∃ page log',
    InertiaResponse._build_page_data cfg
      (with_request self
         (encrypt_history (InertiaResponse.inertia_request self) (PBool value))) log
    = (Return page, log')
    ∧ dict_get page "encryptHistory" = Some (PBool value).
Proof.
  destruct (build_page_data_fields cfg
              (with_request self
                 (encrypt_history (InertiaResponse.inertia_request self)
                    (PBool value))) log value eq_refl)
    as (page & Hrun & _ & _ & Hencrypt & _).
  exists page. eexists. split; [exact Hrun | exact Hencrypt].
Qed.

(** X6.  A value written by [encrypt_history] that is not a boolean (the
    function does not check it) makes every later response for that request
    fail: [__call__] raises the [TypeError] of [validate_type], which names
    the type found, and it does so after the producers of the surviving
    props have been invoked. *)
Theorem encrypt_history_unchecked
    (ssr_post : string → string → InertiaResponse.ssr_reply)
    (get_template : string → outcome InertiaResponse.template)
    (cfg : settings.InertiaSettings) (self : InertiaResponse.t)
    (value : pyval) (log : list nat) :
  isinstance value TBool = false →
  InertiaResponse.__call__ ssr_post get_template cfg
    (with_request self
       (encrypt_history (InertiaResponse.inertia_request self) value)) log
  = (Raise (TypeError ("Expected bool for encrypt_history, got "
                       +:+ type_name (type_of value))),
     log ++ (InertiaResponse.filtered_props self ≫= (λ kv, invoked kv.2))).
Proof.
  intros Hvalue.
  unfold InertiaResponse.__call__, InertiaResponse._build_page_data.
  change (helpers.validate_type _ "clear_history" TBool)
    with (@ret pyval (PBool false)).
  unfold bind at 1. unfold bind at 1. unfold ret at 1. unfold bind at 1.
  rewrite build_props_run.
  unfold bind at 1. unfold InertiaRequest.should_encrypt_history. simpl.
  by rewrite (validate_type_raises value "encrypt_history" TBool _ Hvalue).
Qed.

Lemma encrypt_history_unchecked_witness :
  isinstance (PStr "yes") TBool = false
  ∧ InertiaResponse.__call__ no_ssr name_of_template settings.defaults
      (with_request first_load_merge
         (encrypt_history (InertiaResponse.inertia_request first_load_merge)
            (PStr "yes"))) []
    = (Raise (TypeError "Expected bool for encrypt_history, got str"), [1%nat]).
Proof.
  split; [reflexivity|].
  exact (encrypt_history_unchecked no_ssr name_of_template settings.defaults
           first_load_merge (PStr "yes") [] eq_refl).
Defined.

(** X7.  Nothing sets the clear-history flag: [clear_history] leaves the
    request as it was, and every page that is built, for any request and
    any props, has [clearHistory] false. *)
Theorem clear_history_never_set (cfg : settings.InertiaSettings)
    (self : InertiaResponse.t) (log log' : list nat)
    (page : list (string * pyval)) :
  InertiaResponse._build_page_data cfg
    (with_request self (clear_history (InertiaResponse.inertia_request self))) log
  = (Return page, log') →
  dict_get page "clearHistory" = Some (PBool false)
  ∧ InertiaResponse._build_page_data cfg self log = (Return page, log').
Proof.
  intros Hrun.
  assert (with_request self (clear_history (InertiaResponse.inertia_request self))
          = self) as Hself by by destruct self.
  rewrite Hself in Hrun. split; [|done].
  destruct (isinstance (encrypt_history_value cfg (InertiaResponse.inertia_request self))
              TBool) eqn:Hb.
  - destruct (encrypt_history_value cfg (InertiaResponse.inertia_request self))
      as [|b| | | | | | | |] eqn:Hvalue; try discriminate Hb.
    destruct (build_page_data_fields cfg self log b Hvalue)
      as (page' & Hrun' & _ & _ & _ & Hclear).
    rewrite Hrun in Hrun'. by injection Hrun' as ->.
  - destruct (build_page_data_raises cfg self log Hb) as [e Hraise].
    rewrite Hrun in Hraise. discriminate.
Qed.

Lemma clear_history_never_set_witness :
  ∃ page log',
    InertiaResponse._build_page_data settings.defaults
      (with_request first_load_merge
         (clear_history (InertiaResponse.inertia_request first_load_merge))) []
    = (Return page, log')
    ∧ dict_get page "clearHistory" = Some (PBool false).
Proof.
  assert (∃ page log',
            InertiaResponse._build_page_data settings.defaults
              (with_request first_load_merge
                 (clear_history (InertiaResponse.inertia_request first_load_merge)))
              [] = (Return page, log')) as (page & log' & Hrun).
  { do 2 eexists. vm_compute. reflexivity. }
  exists page, log'. split; [exact Hrun|].
  exact (proj1 (clear_history_never_set settings.defaults first_load_merge []
                  log' page Hrun)).
Defined.

(** ** More on the middleware *)

Section middleware_more.
Context {AppState : Type}.
Variable cfg : settings.InertiaSettings.
Implicit Types (request : Request.t) (response : Response.t).

Lemma post_pass_status request response :
  Response.status_code (InertiaMiddleware.post_pass request response)
  = if InertiaMiddleware._is_inertia_request request
       && InertiaMiddleware._is_redirect_response response
    then if bool_decide (Request.method request ∈ ["PUT"; "PATCH"; "DELETE"])
         then 303 else 409
    else Response.status_code response.
Proof.
  unfold InertiaMiddleware.post_pass, InertiaMiddleware._is_non_get_redirect.
  destruct (InertiaMiddleware._is_inertia_request request); [|done].
  destruct (InertiaMiddleware._is_redirect_response response); [|done].
  simpl. destruct (bool_decide (Request.method request ∈ _)); [done|].
  by destruct (bool_decide _).
Qed.

Lemma post_pass_body request response :
  Response.body (InertiaMiddleware.post_pass request response)
  = Response.body response.
Proof.
  unfold InertiaMiddleware.post_pass.
  destruct (InertiaMiddleware._is_inertia_request request); [|done].
  destruct (InertiaMiddleware._is_non_get_redirect request response); [done|].
  destruct (InertiaMiddleware._is_redirect_response response); [|done].
  by destruct (bool_decide _).
Qed.

Lemma post_pass_not_redirect request response :
  InertiaMiddleware._is_inertia_request request = true →
  InertiaMiddleware._is_redirect_response
    (InertiaMiddleware.post_pass request response) = false.
Proof.
  intros Hx. apply not_true_is_false. rewrite is_redirect_response_status.
  rewrite post_pass_status, Hx. simpl.
  destruct (InertiaMiddleware._is_redirect_response response) eqn:Hr.
  - destruct (bool_decide _); intros [?|?]; discriminate.
  - intros Hs. apply is_redirect_response_status in Hs. congruence.
Qed.

Lemma post_pass_twice request response :
  InertiaMiddleware.post_pass request (InertiaMiddleware.post_pass request response)
  = InertiaMiddleware.post_pass request response.
Proof.
  destruct (InertiaMiddleware._is_inertia_request request) eqn:Hx.
  - pose proof (post_pass_not_redirect request response Hx) as Hr.
    unfold InertiaMiddleware.post_pass at 1.
    unfold InertiaMiddleware._is_non_get_redirect. by rewrite Hx, Hr.
  - unfold InertiaMiddleware.post_pass. by rewrite Hx.
Qed.

(** X8.  The middleware can be installed twice without harm: [dispatch]
    wrapped around [dispatch] answers every request as one [dispatch] does,
    and leaves the application in the same state. *)
Theorem dispatch_installed_twice (request : Request.t)
    (call_next : Request.t → AppState → Response.t * AppState) (st : AppState) :
  InertiaMiddleware.dispatch cfg request
    (λ request, InertiaMiddleware.dispatch cfg request call_next) st
  = InertiaMiddleware.dispatch cfg request call_next st.
Proof.
  unfold InertiaMiddleware.dispatch.
  destruct (_ && _ && _); [done|].
  destruct (call_next request st) as [response st'].
  by rewrite post_pass_twice.
Qed.

(** X9.  An Inertia client never receives a 301 or a 302: whatever the
    application answers, the response of [dispatch] to a request with the
    [X-Inertia] header has another status; and when the application was
    called, the body it produced is returned untouched. *)
Theorem inertia_client_sees_no_redirect (request : Request.t)
    (call_next : Request.t → AppState → Response.t * AppState) (st : AppState) :
  is_Some (Request.headers request !! "X-Inertia") →
  Response.status_code (InertiaMiddleware.dispatch cfg request call_next st).1 ≠ 301
  ∧ Response.status_code (InertiaMiddleware.dispatch cfg request call_next st).1 ≠ 302
  ∧ (¬ short_circuits cfg request →
     Response.body (InertiaMiddleware.dispatch cfg request call_next st).1
     = Response.body (call_next request st).1).
Proof.
  intros Hx. apply is_inertia_request_header in Hx.
  assert (InertiaMiddleware._is_redirect_response
            (InertiaMiddleware.dispatch cfg request call_next st).1 = false) as Hr.
  { unfold InertiaMiddleware.dispatch. destruct (_ && _ && _); [done|].
    destruct (call_next request st) as [response st']. simpl.
    by apply post_pass_not_redirect. }
  apply not_true_iff_false in Hr. rewrite is_redirect_response_status in Hr.
  split_and!; [tauto | tauto |].
  intros Hs. rewrite (dispatch_proceeds cfg _ _ _ Hs). simpl.
  apply post_pass_body.
Qed.

(** X10.  Traffic without the [X-Inertia] header is not touched: for such
    a request [dispatch] is the application itself, redirects included. *)
Theorem dispatch_transparent (request : Request.t)
    (call_next : Request.t → AppState → Response.t * AppState) (st : AppState) :
  Request.headers request !! "X-Inertia" = None →
  InertiaMiddleware.dispatch cfg request call_next st = call_next request st.
Proof.
  intros Hx.
  assert (InertiaMiddleware._is_inertia_request request = false) as Hi.
  { apply not_true_is_false. rewrite is_inertia_request_header, Hx.
    by intros [? ?]. }
  unfold InertiaMiddleware.dispatch, InertiaMiddleware.post_pass. rewrite Hi.
  simpl. by destruct (call_next request st).
Qed.

End middleware_more.

Lemma inertia_client_sees_no_redirect_witness :
  is_Some (Request.headers (current_inertia_request "POST") !! "X-Inertia")
  ∧ Response.status_code
      (InertiaMiddleware.dispatch settings.defaults (current_inertia_request "POST")
         redirecting_app 0%nat).1 ≠ 302.
Proof.
  split; [exact (mk_is_Some _ _ eq_refl)|].
  exact (proj1 (proj2 (inertia_client_sees_no_redirect settings.defaults
                         (current_inertia_request "POST") redirecting_app 0%nat
                         (mk_is_Some _ _ eq_refl)))).
Defined.

Lemma dispatch_transparent_witness :
  Request.headers plain_request !! "X-Inertia" = None
  ∧ InertiaMiddleware.dispatch settings.defaults plain_request redirecting_app 0%nat
    = (Response.mk "" HTTPStatus_FOUND (hdr [("Location", "/about")]), 1%nat).
Proof.
  split; [reflexivity|].
  exact (dispatch_transparent settings.defaults plain_request redirecting_app
           0%nat eq_refl).
Defined.

(** ** What the encoder accepts *)

Lemma dumps_returns ensure_ascii item_separator key_separator (o : pyval) :
  returns (json.dumps ensure_ascii item_separator key_separator o)
  ↔ callable_free o = true.
Proof.
  induction o as [| [] | | |items IH|entries IH| | | |] using pyval_nested_ind;
    try (simpl; split; [done | intros _; by eexists]);
    try (simpl; split; [intros [? ?]; discriminate | discriminate]).
  - simpl.
    match goal with
    | |- context [?chunks true items] =>
        assert (∀ first, returns (chunks first items)
                         ↔ forallb callable_free items = true) as Hchunks
    end.
    { induction IH as [|x rest Hx _ IHrest]; intros first; simpl.
      - split; [done | intros _; by eexists].
      - rewrite andb_true_iff, <- Hx, <- (IHrest false).
        destruct (json.dumps _ _ _ x) as [sx|e].
        + match goal with
          | |- context [match ?r with Return _ => _ | Raise _ => _ end] =>
              destruct r
          end.
          * split; [intros _; split; by eexists | intros _; by eexists].
          * split; [intros [? ?]; discriminate | intros [_ [? ?]]; discriminate].
        + split; [intros [? ?]; discriminate | intros [[? ?] _]; discriminate]. }
    rewrite <- (Hchunks true).
    match goal with
    | |- context [match ?r with Return _ => _ | Raise _ => _ end] => destruct r
    end.
    + split; intros _; by eexists.
    + split; intros [? ?]; discriminate.
  - simpl.
    match goal with
    | |- context [?chunks true entries] =>
        assert (∀ first, returns (chunks first entries)
                         ↔ forallb (λ kv, callable_free kv.2) entries = true)
          as Hchunks
    end.
    { induction IH as [|[k x] rest Hx _ IHrest]; intros first; simpl.
      - split; [done | intros _; by eexists].
      - simpl in Hx. rewrite andb_true_iff, <- Hx, <- (IHrest false).
        destruct (json.dumps _ _ _ x) as [sx|e].
        + match goal with
          | |- context [match ?r with Return _ => _ | Raise _ => _ end] =>
              destruct r
          end.
          * split; [intros _; split; by eexists | intros _; by eexists].
          * split; [intros [? ?]; discriminate | intros [_ [? ?]]; discriminate].
        + split; [intros [? ?]; discriminate | intros [[? ?] _]; discriminate]. }
    rewrite <- (Hchunks true).
    match goal with
    | |- context [match ?r with Return _ => _ | Raise _ => _ end] => destruct r
    end.
    + split; intros _; by eexists.
    + split; intros [? ?]; discriminate.
Qed.

Lemma dumps_raises ensure_ascii item_separator key_separator (o : pyval) e :
  json.dumps ensure_ascii item_separator key_separator o = Raise e →
  ∃ msg, e = TypeError msg.
Proof.
  revert e.
  induction o as [| [] | | |items IH|entries IH| | | |] using pyval_nested_ind;
    intros e; try discriminate;
    try (simpl; unfold json.not_serializable; intros [= <-]; by eexists).
  - simpl.
    match goal with
    | |- context [?chunks true items] =>
        assert (∀ first e, chunks first items = Raise e → ∃ msg, e = TypeError msg)
          as Hchunks
    end.
    { induction IH as [|x rest Hx _ IHrest]; intros first e'; simpl; [discriminate|].
      destruct (json.dumps _ _ _ x) as [sx|ex] eqn:Hsx.
      - match goal with
        | |- context [match ?r with Return _ => _ | Raise _ => _ end] =>
            destruct r as [sr|er] eqn:Hsr
        end; [discriminate|].
        intros [= <-]. by apply (IHrest false).
      - intros [= <-]. by apply Hx. }
    match goal with
    | |- context [match ?r with Return _ => _ | Raise _ => _ end] =>
        destruct r as [inner|e'] eqn:Hinner
    end; [discriminate|].
    intros [= <-]. by apply (Hchunks true).
  - simpl.
    match goal with
    | |- context [?chunks true entries] =>
        assert (∀ first e, chunks first entries = Raise e → ∃ msg, e = TypeError msg)
          as Hchunks
    end.
    { induction IH as [|[k x] rest Hx _ IHrest]; intros first e'; simpl;
        [discriminate|].
      simpl in Hx. destruct (json.dumps _ _ _ x) as [sx|ex] eqn:Hsx.
      - match goal with
        | |- context [match ?r with Return _ => _ | Raise _ => _ end] =>
            destruct r as [sr|er] eqn:Hsr
        end; [discriminate|].
        intros [= <-]. by apply (IHrest false).
      - intros [= <-]. by apply Hx. }
    match goal with
    | |- context [match ?r with Return _ => _ | Raise _ => _ end] =>
        destruct r as [inner|e'] eqn:Hinner
    end; [discriminate|].
    intros [= <-]. by apply (Hchunks true).
Qed.

(** X11.  The encoder of the page, [json.dumps] with
    [InertiaJsonEncoder], returns a string exactly for the values that hold
    no callable and no prop wrapper at any depth, lists included; for any
    other value it raises. *)
Theorem json_encode_accepts (o : pyval) :
  (returns (json_encode o) ↔ callable_free o = true)
  ∧ (callable_free o = false → ∃ msg, json_encode o = Raise (TypeError msg)).
Proof.
  split; [apply dumps_returns|].
  intros Hfree. destruct (json_encode o) as [s|e] eqn:Hs.
  - assert (returns (json_encode o)) as Hr by (rewrite Hs; by eexists).
    apply dumps_returns in Hr. congruence.
  - destruct (dumps_raises _ _ _ _ _ Hs) as [msg ->]. by eexists.
Qed.

Lemma json_encode_accepts_witness :
  callable_free (PList [PFunc 7 PNone]) = false
  ∧ ∃ msg, json_encode (PList [PFunc 7 PNone]) = Raise (TypeError msg).
Proof.
  split; [reflexivity|].
  exact (proj2 (json_encode_accepts (PList [PFunc 7 PNone])) eq_refl).
Defined.

Lemma callable_free_str_list keys : callable_free (InertiaResponse.str_list keys) = true.
Proof. simpl. by induction keys. Qed.

Lemma callable_free_group_map groups :
  callable_free (InertiaResponse.group_map groups) = true.
Proof.
  unfold InertiaResponse.group_map.
  cut (forallb (λ kv, callable_free kv.2)
         (prod_map id InertiaResponse.str_list <$> groups) = true); [done|].
  induction groups as [|[g keys] groups IH]; [done|].
  csimpl. rewrite IH, andb_true_r.
  apply callable_free_str_list.
Qed.

Lemma build_page_data_callable_free cfg self log b :
  encrypt_history_value cfg (InertiaResponse.inertia_request self) = PBool b →
  ∃ page,
    InertiaResponse._build_page_data cfg self log
    = (Return page,
       log ++ (InertiaResponse.filtered_props self ≫= (λ kv, invoked kv.2)))
    ∧ callable_free (PDict page) = callable_free (PDict (page_props self)).
Proof.
  intros Hb.
  unfold InertiaResponse._build_page_data.
  change (helpers.validate_type _ "clear_history" TBool)
    with (@ret pyval (PBool false)).
  unfold bind at 1. unfold ret at 1. unfold bind at 1. rewrite build_props_run.
  unfold bind at 1. unfold InertiaRequest.should_encrypt_history.
  fold (encrypt_history_value cfg (InertiaResponse.inertia_request self)).
  rewrite Hb.
  change (helpers.validate_type (PBool b) "encrypt_history" TBool)
    with (@ret pyval (PBool b)).
  unfold ret. fold (page_props self).
  destruct (InertiaResponse._build_deferred_props self) as [[|g gs]|];
    destruct (InertiaResponse._build_merge_props self) as [|k ks];
    eexists; (split; [reflexivity|]);
    try (generalize (callable_free_str_list (k :: ks));
         generalize (InertiaResponse.str_list (k :: ks)); intros listed Hlisted);
    try (generalize (callable_free_group_map (g :: gs));
         generalize (InertiaResponse.group_map (g :: gs)); intros manifest Hmanifest);
    simpl; rewrite ?Hlisted, ?Hmanifest, ?andb_true_r; reflexivity.
Qed.

(** ** When there is a response *)

(** X12.  A callable left in the props after resolution (a producer in a
    list, a producer returned by a producer) is fatal: [__call__] then
    raises [TypeError], whatever the request, after the producers have run.
    When the resolved props hold no callable the page is serialised, and
    the answer is the [HTMLResponse] of what [_build_first_load] makes of
    it, or the exception that it raises. *)
Theorem response_needs_callable_free_props
    (ssr_post : string → string → InertiaResponse.ssr_reply)
    (get_template : string → outcome InertiaResponse.template)
    (cfg : settings.InertiaSettings) (self : InertiaResponse.t)
    (log : list nat) (b : bool) :
  encrypt_history_value cfg (InertiaResponse.inertia_request self) = PBool b →
  (callable_free (PDict (page_props self)) = false →
   ∃ msg,
     InertiaResponse.__call__ ssr_post get_template cfg self log
     = (Raise (TypeError msg),
        log ++ (InertiaResponse.filtered_props self ≫= (λ kv, invoked kv.2))))
  ∧ (callable_free (PDict (page_props self)) = true →
     ∃ page data,
       InertiaResponse._build_page_data cfg self log
       = (Return page,
          log ++ (InertiaResponse.filtered_props self ≫= (λ kv, invoked kv.2)))
       ∧ json_encode (PDict page) = Return data
       ∧ InertiaResponse.__call__ ssr_post get_template cfg self log
         = (match InertiaResponse._build_first_load ssr_post get_template cfg self data with
            | Return content =>
                Return (HTMLResponse content (InertiaResponse.status_code self)
                          (InertiaResponse.headers self))
            | Raise e => Raise e
            end,
            log ++ (InertiaResponse.filtered_props self ≫= (λ kv, invoked kv.2)))).
Proof.
  intros Hb.
  destruct (build_page_data_callable_free cfg self log b Hb) as (page & Hrun & Hfree).
  rewrite call_first_load, Hrun.
  pose proof (dumps_returns true ", " ": " (PDict page)) as Hdumps.
  fold (json_encode (PDict page)) in Hdumps. rewrite Hfree in Hdumps.
  split.
  - intros Hleft. destruct (json_encode (PDict page)) as [data|e] eqn:Hdata.
    + assert (callable_free (PDict (page_props self)) = true) as Habs
        by (apply Hdumps; by eexists).
      congruence.
    + destruct (dumps_raises _ _ _ _ _ Hdata) as [msg ->]. by eexists.
  - intros Hnone. destruct (proj2 Hdumps Hnone) as [data Hdata].
    exists page, data. rewrite Hdata. split_and!; [done..|].
    by destruct (InertiaResponse._build_first_load _ _ cfg self data).
Qed.

Lemma response_needs_callable_free_props_witness :
  encrypt_history_value settings.defaults
    (InertiaResponse.inertia_request list_of_producers) = PBool false
  ∧ callable_free (PDict (page_props list_of_producers)) = false
  ∧ ∃ msg,
      InertiaResponse.__call__ no_ssr name_of_template settings.defaults
        list_of_producers [] = (Raise (TypeError msg), []).
Proof.
  split; [reflexivity|]. split; [reflexivity|].
  exact (proj1 (response_needs_callable_free_props no_ssr name_of_template
                  settings.defaults list_of_producers [] false eq_refl) eq_refl).
Defined.

Lemma dict_update_has_keys {V} (d o : list (string * V)) k :
  k ∈ dict_keys o → k ∈ dict_keys (dict_update d o).
Proof.
  unfold dict_update, dict_keys. revert d.
  induction o as [|[k0 v0] o IH]; intros d; csimpl; [by intros ?%elem_of_nil|].
  intros Hin. apply elem_of_cons in Hin as [->|Hin]; [|by apply IH].
  apply (dict_update_keeps_keys _ o). rewrite dict_keys_set.
  case_decide; [done|]. apply elem_of_app. right. apply list_elem_of_here.
Qed.

Lemma first_load_repeats_the_layout
    (ssr_post : string → string → InertiaResponse.ssr_reply)
    (get_template : string → outcome InertiaResponse.template)
    (cfg : settings.InertiaSettings) (self : InertiaResponse.t) (data : string) :
  "inertia_layout"
    ∈ dict_keys (InertiaResponse._build_first_load_context_and_template
                   ssr_post cfg self data).1 →
  match get_template
          (InertiaResponse._build_first_load_context_and_template
             ssr_post cfg self data).2 with
  | Raise e =>
      InertiaResponse._build_first_load ssr_post get_template cfg self data = Raise e
  | Return _ =>
      ∃ msg,
        InertiaResponse._build_first_load ssr_post get_template cfg self data
        = Raise (TypeError msg)
  end.
Proof.
  unfold InertiaResponse._build_first_load.
  destruct (InertiaResponse._build_first_load_context_and_template _ cfg self data)
    as [context template_name]. simpl. intros Hin.
  destruct (get_template template_name) as [render|e]; [|done].
  destruct (dict_get context "inertia_layout") eqn:Hget; [by eexists|].
  by apply dict_get_None in Hget.
Qed.

(** X13.  A JSON object in the reply of the SSR service is taken as a
    success whatever it holds.  Without [head] and [body] it still selects
    [inertia_ssr.html], with the object merged with the template data as the
    context, and there is no fallback.  When the object holds the key
    [inertia_layout] and the template exists, [_build_first_load] raises
    [TypeError]: the call of [render], which then repeats a keyword, is
    outside the [try] block. *)
Theorem ssr_reply_not_checked
    (ssr_post : string → string → InertiaResponse.ssr_reply)
    (get_template : string → outcome InertiaResponse.template)
    (cfg : settings.InertiaSettings) (self : InertiaResponse.t) (data : string)
    (fragment : list (string * pyval)) :
  settings.INERTIA_SSR_ENABLED cfg = true →
  ssr_post (settings.INERTIA_SSR_URL cfg +:+ "/render") data
    = InertiaResponse.JsonValue (PDict fragment) →
  InertiaResponse._build_first_load_context_and_template ssr_post cfg self data
  = (dict_merge fragment (InertiaResponse.template_data self), "inertia_ssr.html")
  ∧ (∀ render,
       "inertia_layout" ∈ dict_keys fragment →
       get_template "inertia_ssr.html" = Return render →
       ∃ msg,
         InertiaResponse._build_first_load ssr_post get_template cfg self data
         = Raise (TypeError msg))
  ∧ (∀ render,
       dict_get (dict_merge fragment (InertiaResponse.template_data self))
         "inertia_layout" = None →
       get_template "inertia_ssr.html" = Return render →
       InertiaResponse._build_first_load ssr_post get_template cfg self data
       = render (("inertia_layout", PStr (settings.INERTIA_LAYOUT cfg))
                   :: dict_merge fragment (InertiaResponse.template_data self))).
Proof.
  intros Henabled Hreply.
  assert (InertiaResponse._build_first_load_context_and_template ssr_post cfg self data
          = (dict_merge fragment (InertiaResponse.template_data self),
             "inertia_ssr.html")) as Hcontext.
  { unfold InertiaResponse._build_first_load_context_and_template,
      InertiaResponse.try_ssr. by rewrite Henabled, Hreply. }
  split; [exact Hcontext|]. split.
  - intros render Hin Htemplate.
    pose proof (first_load_repeats_the_layout ssr_post get_template cfg self data)
      as Hrepeat.
    rewrite Hcontext in Hrepeat. simpl in Hrepeat. rewrite Htemplate in Hrepeat.
    apply Hrepeat. unfold dict_merge.
    by apply dict_update_keeps_keys, dict_update_has_keys.
  - intros render Hnone Htemplate. unfold InertiaResponse._build_first_load.
    rewrite Hcontext, Htemplate. by rewrite Hnone.
Qed.

Lemma ssr_reply_not_checked_witness :
  settings.INERTIA_SSR_ENABLED ssr_settings = true
  ∧ InertiaResponse._build_first_load_context_and_template empty_ssr_reply
      ssr_settings visit_with_template_data "{}"
    = ([("title", PStr "Greetings")], "inertia_ssr.html")
  ∧ ∃ msg,
      InertiaResponse._build_first_load layout_in_ssr_reply name_of_template
        ssr_settings visit_with_template_data "{}" = Raise (TypeError msg).
Proof.
  split; [reflexivity|]. split.
  - exact (proj1 (ssr_reply_not_checked empty_ssr_reply name_of_template
                    ssr_settings visit_with_template_data "{}" [] eq_refl eq_refl)).
  - destruct (ssr_reply_not_checked layout_in_ssr_reply name_of_template
                ssr_settings visit_with_template_data "{}"
                [("inertia_layout", PStr "theirs.html")] eq_refl eq_refl)
      as (_ & Hraises & _).
    apply (Hraises (λ context, Return "inertia_ssr.html")); [|reflexivity].
    apply list_elem_of_here.
Defined.

(** X14.  A response that [__call__] returns, for any request, has the
    status and exactly the headers given to the response object, so neither
    [Vary] nor [X-Inertia] unless the handler put them there.  With SSR
    disabled the SSR service plays no part, and the body is the client
    template [inertia.html] rendered with the layout, the serialised page
    under [page], and the template data. *)
Theorem first_load_response
    (ssr_post : string → string → InertiaResponse.ssr_reply)
    (get_template : string → outcome InertiaResponse.template)
    (cfg : settings.InertiaSettings) (self : InertiaResponse.t)
    (log log' : list nat) (response : Response.t) :
  InertiaResponse.__call__ ssr_post get_template cfg self log
    = (Return response, log') →
  Response.status_code response = InertiaResponse.status_code self
  ∧ Response.headers response = InertiaResponse.headers self
  ∧ (settings.INERTIA_SSR_ENABLED cfg = false →
     (∀ ssr_post',
        InertiaResponse.__call__ ssr_post' get_template cfg self log
        = (Return response, log'))
     ∧ ∃ page data render rendered,
         InertiaResponse._build_page_data cfg self log = (Return page, log')
         ∧ json_encode (PDict page) = Return data
         ∧ get_template "inertia.html" = Return render
         ∧ render
             (("inertia_layout", PStr (settings.INERTIA_LAYOUT cfg))
                :: dict_merge [("page", PStr data)]
                     (InertiaResponse.template_data self))
           = Return rendered
         ∧ Response.body response = json.encode_utf8 rendered).
Proof.
  intros Hcall.
  destruct (call_returns _ _ _ _ _ _ _ Hcall)
    as (page & data & content & Hpage & Hdata & Hcontent & ->).
  split_and!; [done..|].
  intros Hssr.
  assert (∀ ssr,
            InertiaResponse._build_first_load ssr get_template cfg self data
            = match get_template "inertia.html" with
              | Raise e => Raise e
              | Return render =>
                  match dict_get (dict_merge [("page", PStr data)]
                                    (InertiaResponse.template_data self))
                          "inertia_layout" with
                  | Some _ =>
                      Raise (TypeError "render() got multiple values for keyword argument 'inertia_layout'")
                  | None =>
                      render
                        (("inertia_layout", PStr (settings.INERTIA_LAYOUT cfg))
                           :: dict_merge [("page", PStr data)]
                                (InertiaResponse.template_data self))
                  end
              end) as Hload.
  { intros ssr. unfold InertiaResponse._build_first_load,
      InertiaResponse._build_first_load_context_and_template,
      InertiaResponse.client_side.
    by rewrite Hssr. }
  split.
  - intros ssr_post'. rewrite call_first_load, Hpage, Hdata, Hload.
    rewrite Hload in Hcontent. by rewrite Hcontent.
  - rewrite Hload in Hcontent.
    destruct (get_template "inertia.html") as [render|e]; [|discriminate].
    exists page, data, render, content. split_and!; try done.
    by destruct (dict_get _ "inertia_layout").
Qed.

Lemma first_load_response_witness :
  ∃ response,
    InertiaResponse.__call__ no_ssr name_of_template settings.defaults
      visit_with_template_data [] = (Return response, [])
    ∧ Response.status_code response = 200
    ∧ Response.headers response = ∅.
Proof.
  assert (∃ response,
            InertiaResponse.__call__ no_ssr name_of_template settings.defaults
              visit_with_template_data [] = (Return response, []))
    as [response Hcall].
  { eexists. vm_compute. reflexivity. }
  destruct (first_load_response no_ssr name_of_template settings.defaults
              visit_with_template_data [] [] response Hcall)
    as (Hstatus & Hheaders & _).
  exists response. split; [exact Hcall|]. split; [exact Hstatus | exact Hheaders].
Defined.

(** X15.  Template data cannot name the layout: when it has the key
    [inertia_layout] nothing is rendered, with or without SSR.
    [_build_first_load] raises what [get_template] raises when the template
    cannot be had, and otherwise [TypeError], the call of the template's
    [render] repeating a keyword. *)
Theorem template_data_cannot_name_the_layout
    (ssr_post : string → string → InertiaResponse.ssr_reply)
    (get_template : string → outcome InertiaResponse.template)
    (cfg : settings.InertiaSettings) (self : InertiaResponse.t) (data : string) :
  "inertia_layout" ∈ dict_keys (InertiaResponse.template_data self) →
  match get_template
          (InertiaResponse._build_first_load_context_and_template
             ssr_post cfg self data).2 with
  | Raise e =>
      InertiaResponse._build_first_load ssr_post get_template cfg self data = Raise e
  | Return _ =>
      ∃ msg,
        InertiaResponse._build_first_load ssr_post get_template cfg self data
        = Raise (TypeError msg)
  end
  ∧ ¬ returns (InertiaResponse._build_first_load ssr_post get_template cfg self data).
Proof.
  intros Hin.
  assert ("inertia_layout"
            ∈ dict_keys (InertiaResponse._build_first_load_context_and_template
                           ssr_post cfg self data).1) as Hcontext.
  { assert (∀ base, "inertia_layout"
                      ∈ dict_keys (dict_merge base (InertiaResponse.template_data self)))
      as Hmerged.
    { intros base. unfold dict_merge. by apply dict_update_has_keys. }
    unfold InertiaResponse._build_first_load_context_and_template,
      InertiaResponse.try_ssr, InertiaResponse.client_side.
    destruct (settings.INERTIA_SSR_ENABLED cfg); [|apply Hmerged].
    destruct (ssr_post _ data) as [| | |reply]; try apply Hmerged.
    destruct reply; apply Hmerged. }
  pose proof (first_load_repeats_the_layout ssr_post get_template cfg self data
                Hcontext) as Hraises.
  split; [exact Hraises|].
  intros [content Hcontent]. rewrite Hcontent in Hraises.
  destruct (get_template _); [by destruct Hraises | discriminate].
Qed.

Lemma template_data_cannot_name_the_layout_witness :
  "inertia_layout" ∈ dict_keys (InertiaResponse.template_data visit_naming_the_layout)
  ∧ (∃ msg,
       InertiaResponse._build_first_load no_ssr name_of_template settings.defaults
         visit_naming_the_layout "{}" = Raise (TypeError msg))
  ∧ InertiaResponse._build_first_load no_ssr no_templates settings.defaults
      visit_naming_the_layout "{}" = Raise (TemplateNotFound "inertia.html").
Proof.
  assert ("inertia_layout"
            ∈ dict_keys (InertiaResponse.template_data visit_naming_the_layout))
    as Hin by apply list_elem_of_here.
  split; [exact Hin|]. split.
  - exact (proj1 (template_data_cannot_name_the_layout no_ssr name_of_template
                    settings.defaults visit_naming_the_layout "{}" Hin)).
  - exact (proj1 (template_data_cannot_name_the_layout no_ssr no_templates
                    settings.defaults visit_naming_the_layout "{}" Hin)).
Defined.

(** ** Invariants of the manifest *)

Lemma first_seen_NoDup groups : NoDup (first_seen groups).
Proof.
  induction groups as [|g groups IH]; simpl; [apply NoDup_nil_2|].
  apply NoDup_cons. split.
  - rewrite list_elem_of_In, List.filter_In, negb_true_iff, bool_decide_eq_false.
    by intros [_ ?].
  - apply NoDup_ListNoDup, List.NoDup_filter, NoDup_ListNoDup, IH.
Qed.

Lemma fmap_fst_pair {A B} (f : A → B) (l : list A) :
  ((λ a, (a, f a)) <$> l).*1 = l.
Proof. induction l as [|a l IH]; csimpl; [done|]. by rewrite IH. Qed.

Lemma setdefault_append_listed d group key :
  List.length (listed (InertiaResponse.setdefault_append d group key))
  = S (List.length (listed d)).
Proof.
  unfold InertiaResponse.setdefault_append, listed.
  induction d as [|[g keys] d IH]; csimpl; [done|].
  destruct (decide (g = group)) as [->|Hne]; csimpl.
  - rewrite !length_app. simpl. lia.
  - destruct (dict_get d group); csimpl in *; rewrite !length_app, IH; lia.
Qed.

Lemma grouped_listed pairs acc :
  List.length (listed (fold_left
                    (λ acc kg, InertiaResponse.setdefault_append acc kg.2 kg.1)
                    pairs acc))
  = (List.length (listed acc) + List.length pairs)%nat.
Proof.
  revert acc. induction pairs as [|[k g] pairs IH]; intros acc; simpl; [lia|].
  rewrite IH, setdefault_append_listed. lia.
Qed.

Lemma manifest_as_specified_listed props :
  List.length (listed (manifest_as_specified props)) = List.length (deferred_pairs props).
Proof.
  rewrite <- deferred_loop_manifest, deferred_loop_pairs, grouped_listed. done.
Qed.

Lemma build_deferred_props_Some self manifest :
  InertiaResponse._build_deferred_props self = Some manifest →
  partial_render self = false
  ∧ manifest = manifest_as_specified (InertiaResponse.props self)
  ∧ manifest ≠ [].
Proof.
  rewrite build_deferred_props_manifest.
  destruct (partial_render self); [done|].
  destruct (manifest_as_specified _) eqn:Hm; [done|].
  by intros [= <-].
Qed.

Lemma listed_elem (manifest : list (string * list string)) key :
  key ∈ listed manifest ↔ ∃ group keys, (group, keys) ∈ manifest ∧ key ∈ keys.
Proof.
  unfold listed. rewrite list_elem_of_join. split.
  - intros (keys & Hkey & Hin). apply list_elem_of_fmap in Hin as [[g ks] [-> Hin]].
    eauto.
  - intros (g & keys & Hin & Hkey). exists keys. split; [done|].
    apply list_elem_of_fmap. by exists (g, keys).
Qed.

(** X16.  Whenever a manifest is built, on a first load: its group names
    are pairwise distinct and no group is empty; a key is listed under a
    group exactly when the handler's props hold a [DeferredProp] with that
    key and group; and the manifest lists as many keys as there are
    deferred props, so with unique prop keys each is listed once. *)
Theorem manifest_invariants (self : InertiaResponse.t)
    (manifest : list (string * list string)) :
  InertiaResponse._build_deferred_props self = Some manifest →
  NoDup manifest.*1
  ∧ (∀ group keys, (group, keys) ∈ manifest → keys ≠ [])
  ∧ (∀ key group,
       (∃ keys, (group, keys) ∈ manifest ∧ key ∈ keys)
       ↔ ∃ prop merge,
           (key, PDeferredProp prop group merge) ∈ InertiaResponse.props self)
  ∧ List.length (listed manifest) = List.length (deferred_pairs (InertiaResponse.props self))
  ∧ (NoDup (dict_keys (InertiaResponse.props self)) → NoDup (listed manifest)).
Proof.
  intros Hsome. apply build_deferred_props_Some in Hsome as (_ & -> & _).
  set (props := InertiaResponse.props self).
  assert (∀ key group,
            (∃ keys, (group, keys) ∈ manifest_as_specified props ∧ key ∈ keys)
            ↔ (key, group) ∈ deferred_pairs props) as Hlisted.
  { intros key group. split.
    - intros (keys & Hin & Hkey).
      apply manifest_as_specified_elem in Hin as [_ ->].
      by apply keys_of_group_elem.
    - intros Hin. exists (keys_of_group (deferred_pairs props) group). split.
      + apply manifest_as_specified_elem. split; [|done].
        apply list_elem_of_fmap. by exists (key, group).
      + by apply keys_of_group_elem. }
  split_and!.
  - unfold manifest_as_specified. rewrite fmap_fst_pair.
    apply first_seen_NoDup.
  - intros group keys Hin. apply manifest_as_specified_elem in Hin as [Hg ->].
    by apply keys_of_group_declared.
  - intros key group. rewrite Hlisted. apply deferred_pairs_elem.
  - apply manifest_as_specified_listed.
  - intros Hnd.
    assert (NoDup (deferred_pairs props).*1) as Hpairs.
    { unfold deferred_pairs. clear Hlisted. unfold dict_keys in Hnd.
      fold props in Hnd. induction props as [|[k v] rest IH]; csimpl;
        [apply NoDup_nil_2|].
      csimpl in Hnd. apply NoDup_cons in Hnd as [Hk Hnd].
      destruct v; csimpl; try by apply IH.
      apply NoDup_cons. split; [|by apply IH].
      intros Hin. apply Hk. apply list_elem_of_fmap in Hin as [[k' g'] [-> Hin]].
      apply list_elem_of_omap in Hin as ([k2 v2] & Hin & Hsome).
      apply list_elem_of_fmap. exists (k2, v2). split; [|done].
      destruct v2; try discriminate. simpl in Hsome. by injection Hsome as -> _. }
    apply NoDup_ListNoDup.
    apply (List.NoDup_incl_NoDup (l := (deferred_pairs props).*1)).
    + by apply NoDup_ListNoDup.
    + rewrite manifest_as_specified_listed. by rewrite length_fmap.
    + intros key Hin. apply list_elem_of_In in Hin.
      apply list_elem_of_fmap in Hin as [[k g] [-> Hin]].
      apply list_elem_of_In, listed_elem. apply Hlisted in Hin.
      destruct Hin as (keys & ? & ?). eauto.
Qed.

Lemma manifest_invariants_witness :
  InertiaResponse._build_deferred_props first_load_defer_group
    = Some [("group", ["sport"; "team"]); ("default", ["grit"])]
  ∧ List.length (listed [("group", ["sport"; "team"]); ("default", ["grit"])])
    = List.length (deferred_pairs (InertiaResponse.props first_load_defer_group)).
Proof.
  split; [reflexivity|].
  exact (proj1 (proj2 (proj2 (proj2 (manifest_invariants first_load_defer_group
                                       _ eq_refl))))).
Defined.

(** ** The props of the page and the two lists *)

Lemma page_props_keys self : dict_keys (page_props self)
                             = dict_keys (InertiaResponse.filtered_props self).
Proof. apply dict_keys_resolved. Qed.

Lemma handler_prop_merged self key v :
  NoDup (dict_keys (InertiaResponse.props self)) →
  (key, v) ∈ InertiaResponse.props self →
  dict_get (InertiaResponse.merged_props self) key = Some v.
Proof. intros Hnd Hin. by apply dict_merge_get_right. Qed.

(** X17.  On a first load the page props and the manifest are disjoint and
    between them account for the handler's props: a key listed in the
    manifest is not among the page props, and a handler prop that is not
    among the page props is either an [OptionalProp] or listed in the
    manifest. *)
Theorem first_load_props_and_manifest (self : InertiaResponse.t) :
  NoDup (dict_keys (InertiaResponse.props self)) →
  partial_render self = false →
  (∀ manifest key,
     InertiaResponse._build_deferred_props self = Some manifest →
     key ∈ listed manifest → key ∉ dict_keys (page_props self))
  ∧ (∀ key v,
       (key, v) ∈ InertiaResponse.props self →
       key ∉ dict_keys (page_props self) →
       (∃ prop, v = POptionalProp prop)
       ∨ (∃ manifest,
            InertiaResponse._build_deferred_props self = Some manifest
            ∧ key ∈ listed manifest)).
Proof.
  intros Hnd Hfirst. split.
  - intros manifest key Hsome Hin.
    apply build_deferred_props_Some in Hsome as (_ & -> & _).
    apply listed_elem in Hin as (group & keys & Hin & Hkey).
    apply manifest_as_specified_elem in Hin as [_ ->].
    apply keys_of_group_elem, deferred_pairs_elem in Hkey as (prop & merge & Hprop).
    rewrite page_props_keys.
    rewrite (filtered_props_key self key _ (handler_prop_merged _ _ _ Hnd Hprop)).
    unfold keeps. by rewrite Hfirst.
  - intros key v Hin Hdropped. rewrite page_props_keys in Hdropped.
    rewrite (filtered_props_key self key _ (handler_prop_merged _ _ _ Hnd Hin))
      in Hdropped.
    unfold keeps in Hdropped. rewrite Hfirst in Hdropped.
    destruct v as [| | | | | | |prop|prop group merge|]; try by destruct Hdropped.
    + left. by eexists.
    + right. rewrite build_deferred_props_manifest, Hfirst.
      assert ((group, keys_of_group (deferred_pairs (InertiaResponse.props self)) group)
              ∈ manifest_as_specified (InertiaResponse.props self)) as Hgroup.
      { apply manifest_as_specified_elem. split; [|done].
        apply list_elem_of_fmap. exists (key, group). split; [done|].
        apply deferred_pairs_elem. eauto. }
      destruct (manifest_as_specified (InertiaResponse.props self)) as [|entry rest]
        eqn:Hm; [by apply elem_of_nil in Hgroup|].
      eexists. split; [done|]. apply listed_elem. do 2 eexists. split; [exact Hgroup|].
      apply keys_of_group_elem, deferred_pairs_elem. eauto.
Qed.

Lemma first_load_props_and_manifest_witness :
  NoDup (dict_keys (InertiaResponse.props first_load_defer_group))
  ∧ partial_render first_load_defer_group = false
  ∧ ("team" ∉ dict_keys (page_props first_load_defer_group)).
Proof.
  assert (NoDup (dict_keys (InertiaResponse.props first_load_defer_group))) as Hnd.
  { refine (bool_decide_unpack _ _). vm_compute. exact I. }
  split; [exact Hnd|]. split; [reflexivity|].
  apply (proj1 (first_load_props_and_manifest first_load_defer_group Hnd eq_refl)
           [("group", ["sport"; "team"]); ("default", ["grit"])] "team" eq_refl).
  vm_compute. apply list_elem_of_further, list_elem_of_here.
Defined.

(** X18.  The dict that the property [headers] of an [InertiaRequest]
    returns has one entry for each header name of the request, under the
    name in lower case, with the first value sent under that name in
    whatever case.  So it answers a lower-case name as the framework's own
    lookup answers the name in any case, and it has nothing under a name
    with an upper-case letter, for which [.get] returns its default. *)
Theorem inertia_request_headers_lower_case (request : Request.t) (name : string) :
  NoDup (dict_keys (InertiaRequest.headers request))
  ∧ (name ∈ dict_keys (InertiaRequest.headers request) → lower name = name)
  ∧ dict_get (InertiaRequest.headers request) (lower name)
    = Request.headers request !! name
  ∧ Request.headers request !! name
    = (λ found, found.2.2)
        <$> list_find (λ field, lower field.1 = lower name)
              (Request.header_fields request)
  ∧ (lower name ≠ name →
     dict_get (InertiaRequest.headers request) name = None
     ∧ InertiaRequest.has_header request name = false
     ∧ InertiaRequest.get_header request name = "").
Proof.
  split_and!.
  - apply dict_of_mapping_NoDup, NoDup_nil_2.
  - intros Hin. destruct (decide (lower name = name)) as [|Hne]; [done|].
    apply dict_get_None in Hin; [done|].
    by rewrite inertia_request_headers_get, decide_False.
  - rewrite inertia_request_headers_get, decide_True by apply lower_idemp.
    unfold lookup, headers_lookup, Headers.__getitem__.
    by rewrite lower_idemp.
  - unfold lookup, headers_lookup, Headers.__getitem__, Request.headers,
      Request.scope_headers. simpl.
    induction (Request.header_fields request) as [|[sent value] fields IH];
      csimpl; [done|].
    rewrite IH. repeat case_decide; try done.
    by destruct (list_find _ fields) as [[i field]|].
  - intros Hne. split.
    + by rewrite inertia_request_headers_get, decide_False.
    + by apply capitalised_name_not_read.
Qed.

Lemma inertia_request_headers_lower_case_witness :
  lower "X-Inertia-Version" ≠ "X-Inertia-Version"
  ∧ dict_get (InertiaRequest.headers stale_inertia_request) "x-inertia-version"
    = Some "0.9"
  ∧ InertiaRequest.get_header stale_inertia_request "X-Inertia-Version" = "".
Proof.
  assert (lower "X-Inertia-Version" ≠ "X-Inertia-Version") as Hne by discriminate.
  split; [exact Hne|].
  destruct (inertia_request_headers_lower_case stale_inertia_request
              "X-Inertia-Version") as (_ & _ & Hlower & _ & Hcapital).
  split; [exact Hlower | exact (proj2 (proj2 (Hcapital Hne)))].
Defined.

(** X19.  The two lists are taken from the handler's props alone.  A key
    that only the shared state provides is never in [mergeProps] nor in the
    manifest, whatever its value: a [DeferredProp] put there with [share]
    is dropped from a first load and announced nowhere. *)
Theorem shared_props_are_not_listed (self : InertiaResponse.t) (key : string) :
  key ∉ dict_keys (InertiaResponse.props self) →
  (key ∉ InertiaResponse._build_merge_props self)
  ∧ (∀ manifest,
       InertiaResponse._build_deferred_props self = Some manifest →
       key ∉ listed manifest)
  ∧ (∀ prop group merge,
       NoDup (dict_keys (InertiaRequest.inertia (InertiaResponse.inertia_request self))) →
       NoDup (dict_keys (InertiaResponse.props self)) →
       partial_render self = false →
       dict_get (InertiaRequest.inertia (InertiaResponse.inertia_request self)) key
         = Some (PDeferredProp prop group merge) →
       key ∉ dict_keys (page_props self)).
Proof.
  intros Hkey.
  assert (∀ v, (key, v) ∉ InertiaResponse.props self) as Habsent.
  { intros v Hin. apply Hkey. apply list_elem_of_fmap. by exists (key, v). }
  split_and!.
  - intros Hin. apply build_merge_props_elem in Hin as (v & Hin & _).
    by apply (Habsent v).
  - intros manifest Hsome Hin.
    apply build_deferred_props_Some in Hsome as (_ & -> & _).
    apply listed_elem in Hin as (group & keys & Hin & Hk).
    apply manifest_as_specified_elem in Hin as [_ ->].
    apply keys_of_group_elem, deferred_pairs_elem in Hk as (prop & merge & Hprop).
    by apply (Habsent _ Hprop).
  - intros prop group merge Hshared Hprops Hfirst Hget.
    assert (dict_get (InertiaResponse.merged_props self) key
            = Some (PDeferredProp prop group merge)) as Hmerged.
    { unfold InertiaResponse.merged_props. rewrite dict_merge_get by done.
      apply dict_get_None in Hkey. by rewrite Hkey. }
    rewrite page_props_keys, (filtered_props_key self key _ Hmerged).
    unfold keeps. by rewrite Hfirst.
Qed.

Lemma shared_props_are_not_listed_witness :
  ("feed" ∉ dict_keys (InertiaResponse.props shared_deferred))
  ∧ ("feed" ∉ InertiaResponse._build_merge_props shared_deferred)
  ∧ ("feed" ∉ dict_keys (page_props shared_deferred)).
Proof.
  assert ("feed" ∉ dict_keys (InertiaResponse.props shared_deferred)) as Hkey.
  { refine (bool_decide_unpack _ _). vm_compute. exact I. }
  assert (NoDup (dict_keys (InertiaRequest.inertia
                              (InertiaResponse.inertia_request shared_deferred))))
    as Hshared.
  { refine (bool_decide_unpack _ _). vm_compute. exact I. }
  assert (NoDup (dict_keys (InertiaResponse.props shared_deferred))) as Hprops.
  { refine (bool_decide_unpack _ _). vm_compute. exact I. }
  destruct (shared_props_are_not_listed shared_deferred "feed" Hkey)
    as (Hmerge & _ & Hdropped).
  split; [exact Hkey|]. split; [exact Hmerge|].
  exact (Hdropped (PFunc 5 (PList [])) "default" true Hshared Hprops eq_refl eq_refl).
Defined.

(** ** Data without producers *)

Lemma producer_result_depth x : (call_depth (producer_result x) ≤ call_depth x)%nat.
Proof. induction x; simpl; lia. Qed.

Lemma producer_result_fixed x : producer_result x = x → prop_classes.callable x = false.
Proof.
  intros Hx. apply (f_equal call_depth) in Hx.
  destruct x as [| | | | | |id result|prop|prop group merge|prop]; try done;
    simpl in Hx; try pose proof (producer_result_depth prop); lia.
Qed.

Lemma resolved_fixed v : resolved v = v ↔ producer_free v = true.
Proof.
  induction v as [| | | |items _|entries IH| | | |] using pyval_nested_ind;
    try (simpl; split; [done | done]);
    try (split; [intros Hx; apply producer_result_fixed in Hx; discriminate Hx
                | discriminate]).
  simpl. split.
  - intros [= Hentries]. induction IH as [|[k x] rest Hx _ IHrest]; [done|].
    csimpl in *. injection Hentries as Hhead Hrest.
    apply andb_true_iff. split; [by apply Hx | by apply IHrest].
  - intros Hfree. f_equal. induction IH as [|[k x] rest Hx _ IHrest]; [done|].
    csimpl in *. apply andb_true_iff in Hfree as [Hhead Hrest].
    f_equal; [f_equal; by apply Hx | by apply IHrest].
Qed.

Lemma producer_free_invoked v : producer_free v = true → invoked v = [].
Proof.
  induction v as [| | | |items _|entries IH| | | |] using pyval_nested_ind;
    try done.
  simpl. intros Hfree. induction IH as [|[k x] rest Hx _ IHrest]; [done|].
  csimpl in *. apply andb_true_iff in Hfree as [Hhead Hrest].
  by rewrite Hx, IHrest.
Qed.

(** X20.  [deep_transform_callables] gives back its argument unchanged,
    having invoked nothing, exactly when the argument holds no callable and
    no prop wrapper at the value itself or under nested dicts; what a list
    holds does not matter. *)
Theorem deep_transform_callables_fixed (v : pyval) (log : list nat) :
  helpers.deep_transform_callables v log = (Return v, log)
  ↔ producer_free v = true.
Proof.
  rewrite deep_transform_callables_run. split.
  - intros [= Hv _]. by apply resolved_fixed.
  - intros Hfree. rewrite (proj2 (resolved_fixed v) Hfree).
    by rewrite (producer_free_invoked v Hfree), app_nil_r.
Qed.

Lemma deep_transform_callables_fixed_witness :
  producer_free (PDict [("person", PDict [("name", PStr "Brandon")]);
                        ("tags", PList [PFunc 7 PNone])]) = true
  ∧ helpers.deep_transform_callables
      (PDict [("person", PDict [("name", PStr "Brandon")]);
              ("tags", PList [PFunc 7 PNone])]) []
    = (Return (PDict [("person", PDict [("name", PStr "Brandon")]);
                      ("tags", PList [PFunc 7 PNone])]), []).
Proof.
  split; [reflexivity|].
  exact (proj2 (deep_transform_callables_fixed
                  (PDict [("person", PDict [("name", PStr "Brandon")]);
                          ("tags", PList [PFunc 7 PNone])]) [])
               eq_refl).
Defined.

(** ** The keys read from a header *)

Lemma split_not_nil sep s : split sep s ≠ [].
Proof.
  destruct s as [|c rest]; simpl; [done|].
  destruct (Ascii.eqb c sep); [done|]. by destruct (split sep rest).
Qed.

Lemma join_cons sep s l : l ≠ [] → join sep (s :: l) = s +:+ String sep (join sep l).
Proof. by destruct l. Qed.

Lemma join_push sep c x xs : join sep (String c x :: xs) = String c (join sep (x :: xs)).
Proof. by destruct xs. Qed.

(** X21.  The keys that [partial_keys] and [reset_keys] read are all of the
    header value and nothing else: the list is never empty, no key holds a
    comma, joined with commas the keys give back the value, and a value
    without a comma, the empty one included, is a single key. *)
Theorem header_keys (request : Request.t) (name : string) :
  let value := InertiaRequest.get_header request name in
  split comma value ≠ []
  ∧ (∀ key, key ∈ split comma value → occurs comma key = false)
  ∧ join comma (split comma value) = value
  ∧ (occurs comma value = false → split comma value = [value])
  ∧ InertiaRequest.partial_keys request
    = split comma (InertiaRequest.get_header request "X-Inertia-Partial-Data")
  ∧ InertiaRequest.reset_keys request
    = split comma (InertiaRequest.get_header request "X-Inertia-Reset").
Proof.
  intros value. generalize value. clear value. intros value.
  split_and!; [apply split_not_nil | | | | done | done].
  - induction value as [|c rest IH]; simpl.
    + intros key Hin. by apply list_elem_of_singleton in Hin as ->.
    + destruct (Ascii.eqb c comma) eqn:Hc.
      * intros key Hin. apply elem_of_cons in Hin as [->|Hin]; [done | by apply IH].
      * pose proof (split_not_nil comma rest) as Hne.
        destruct (split comma rest) as [|x xs]; [done|].
        intros key Hin. apply elem_of_cons in Hin as [->|Hin].
        -- simpl. rewrite Hc. simpl. apply IH, list_elem_of_here.
        -- by apply IH, list_elem_of_further.
  - induction value as [|c rest IH]; simpl; [done|].
    destruct (Ascii.eqb c comma) eqn:Hc.
    + apply Ascii.eqb_eq in Hc as ->.
      rewrite join_cons by apply split_not_nil. simpl. by rewrite IH.
    + pose proof (split_not_nil comma rest) as Hne.
      destruct (split comma rest) as [|x xs]; [done|].
      by rewrite join_push, IH.
  - induction value as [|c rest IH]; simpl; [done|].
    intros Hfree. apply orb_false_iff in Hfree as [Hc Hrest].
    rewrite Hc. by rewrite (IH Hrest).
Qed.

Lemma header_keys_witness :
  occurs comma (InertiaRequest.get_header plain_request "X-Inertia-Reset") = false
  ∧ InertiaRequest.reset_keys plain_request = [""].
Proof.
  split; [reflexivity|].
  destruct (header_keys plain_request "X-Inertia-Reset")
    as (_ & _ & _ & Hsingle & _ & Hreset).
  rewrite Hreset. exact (Hsingle eq_refl).
Defined.
